(** * simple-types: the structural verifier of [Type], embedded in Rocq

    A shallow embedding of class [Type] of [type.mjs]: the introspection
    helper [Type.from], the synthesized constructor of
    [Type.classFromFormat], and the recursive verifier [Type.prototype.verify].

    JavaScript values are finite trees with data properties under string
    keys; symbols, accessors of user objects and proxies are left out.
    Console warnings are collected in a log and thrown exceptions are
    results of their own, so that every function of the source is a total,
    executable Rocq function. *)

From Stdlib Require Import String Ascii List ZArith Bool Arith Lia.
From Stdlib Require Import Permutation.
From stdpp Require gmap.
Import ListNotations.
Local Open Scope string_scope.
Local Open Scope list_scope.

(** ** Values *)

(** The JavaScript values the verifier can meet.
    - A function or class carries its [name] property only.
    - An array is dense and carries its elements.
    - An object carries the tag its [Object.prototype.toString] reports
      (["Object"] for an object literal, the class name for an instance of
      [Type.Optional] or of a synthesized class, whose prototype defines
      [Symbol.toStringTag]) and its own enumerable string-keyed properties in
      the order [Object.keys] lists them. *)
#[warnings="-register-all"]
Inductive value : Type :=
| VUndefined
| VNull
| VBoolean (b : bool)
| VNumber (n : Z)
| VString (s : string)
| VFunction (name : string)
| VArray (elems : list value)
| VObject (tag : string) (props : list (string * value)).

(** The errors the source can raise, all raised by the runtime itself. *)
Inductive error : Type :=
| TypeError
| SyntaxError
| RangeError.

Inductive result (A : Type) : Type :=
| Ok (a : A)
| Throw (e : error).
Arguments Ok {A} a.
Arguments Throw {A} e.

(** The two [console.warn] calls of [verify], kept as the values their
    template literals interpolate:
    [`Format requires ${key}, it is not optional and object doesn't have it`]
    and [`${key}(${fMeta.name}) !== ${key}(${oMeta.name})`]. *)
Inductive diagnostic : Type :=
| MissingRequired (key : string)
| Mismatch (key : string) (fName oName : value).

(** ** Warnings and exceptions *)

Module Outcome.

(** What a call leaves behind: the warnings it printed, in order, and
    either its value or the exception it threw. *)
Definition outcome (A : Type) : Type := (list diagnostic * result A)%type.

Definition ret {A} (a : A) : outcome A := ([], Ok a).
Definition raise {A} (e : error) : outcome A := ([], Throw e).
Definition warn (d : diagnostic) : outcome unit := ([d], Ok tt).
Definition lift {A} (r : result A) : outcome A := ([], r).

Definition bind {A B} (m : outcome A) (k : A -> outcome B) : outcome B :=
  match m with
  | (w, Ok a) => let (w', r) := k a in (w ++ w', r)
  | (w, Throw e) => (w, Throw e)
  end.

Definition warnings {A} (m : outcome A) : list diagnostic := fst m.
Definition returned {A} (m : outcome A) : result A := snd m.

End Outcome.
Import Outcome.

Declare Scope js_scope.
Delimit Scope js_scope with js.
Notation "x <- m ;; k" := (bind m (fun x => k))
  (at level 90, m at next level, right associativity) : js_scope.
Notation "m ;;; k" := (bind m (fun _ => k))
  (at level 90, right associativity) : js_scope.
Local Open Scope js_scope.

(** ** Primitive operations of the runtime *)

(** [typeof v]. *)
Definition typeof (v : value) : string :=
  match v with
  | VUndefined => "undefined"
  | VNull => "object"
  | VBoolean _ => "boolean"
  | VNumber _ => "number"
  | VString _ => "string"
  | VFunction _ => "function"
  | VArray _ | VObject _ _ => "object"
  end.

(** Truthiness, as [||] and [if] test it. *)
Definition truthy (v : value) : bool :=
  match v with
  | VUndefined | VNull => false
  | VBoolean b => b
  | VNumber n => negb (n =? 0)%Z
  | VString s => negb (s =? "")
  | VFunction _ | VArray _ | VObject _ _ => true
  end.

(** [a === b].  Primitives compare by value.  Functions are identified by
    their name.  Two arrays or objects met at different places of a value
    tree are different objects, so they are never identical. *)
Definition strict_equals (a b : value) : bool :=
  match a, b with
  | VUndefined, VUndefined => true
  | VNull, VNull => true
  | VBoolean x, VBoolean y => Bool.eqb x y
  | VNumber x, VNumber y => (x =? y)%Z
  | VString x, VString y => (x =? y)
  | VFunction x, VFunction y => (x =? y)
  | _, _ => false
  end.

(** Decimal digits of an array index. *)
Definition digit (n : nat) : ascii := ascii_of_nat (48 + n).

Fixpoint digits (fuel n : nat) (acc : string) : string :=
  match fuel with
  | O => acc
  | S fuel' =>
      let acc' := String (digit (n mod 10)) acc in
      if (n <? 10)%nat then acc' else digits fuel' (n / 10) acc'
  end.

(** [String(n)] for an index [n]. *)
Definition index_key (n : nat) : string := digits (S n) n "".

(** The index keys ["0"], ["1"], ... of an array or string of length [n]. *)
Definition index_keys (n : nat) : list string := map index_key (seq 0 n).

(** First entry of an association list under [key]. *)
Fixpoint lookup {A} (key : string) (l : list (string * A)) : option A :=
  match l with
  | [] => None
  | (k, v) :: l' => if k =? key then Some v else lookup key l'
  end.

(** The characters of a string as one-character strings. *)
Fixpoint chars (s : string) : list value :=
  match s with
  | EmptyString => []
  | String c s' => VString (String c EmptyString) :: chars s'
  end.

(** Own enumerable string-keyed properties, in [Object.keys] order. *)
Definition own_props (v : value) : list (string * value) :=
  match v with
  | VObject _ props => props
  | VArray elems => combine (index_keys (List.length elems)) elems
  | VString s => combine (index_keys (String.length s)) (chars s)
  | _ => []
  end.

(** [Object.keys(v)]: a [TypeError] on [undefined] and [null]. *)
Definition Object_keys (v : value) : result (list string) :=
  match v with
  | VUndefined | VNull => Throw TypeError
  | _ => Ok (map fst (own_props v))
  end.

(** ** Property lookup through the prototype chain *)

(** The tag [Object.prototype.toString] puts after ["[object "]. *)
Definition class_tag (v : value) : string :=
  match v with
  | VUndefined => "Undefined"
  | VNull => "Null"
  | VBoolean _ => "Boolean"
  | VNumber _ => "Number"
  | VString _ => "String"
  | VFunction _ => "Function"
  | VArray _ => "Array"
  | VObject tag _ => tag
  end.

(** String-keyed members of [Object.prototype], which every value inherits. *)
Definition Object_prototype_names : list string :=
  [ "constructor"; "__defineGetter__"; "__defineSetter__"; "hasOwnProperty";
    "__lookupGetter__"; "__lookupSetter__"; "isPrototypeOf";
    "propertyIsEnumerable"; "toString"; "valueOf"; "__proto__";
    "toLocaleString" ].

(** String-keyed members of [Array.prototype]. *)
Definition Array_prototype_names : list string :=
  [ "at"; "concat"; "copyWithin"; "fill"; "find"; "findIndex"; "findLast";
    "findLastIndex"; "lastIndexOf"; "pop"; "push"; "reverse"; "shift";
    "unshift"; "slice"; "sort"; "splice"; "includes"; "indexOf"; "join";
    "keys"; "entries"; "values"; "forEach"; "filter"; "flat"; "flatMap";
    "map"; "every"; "some"; "reduce"; "reduceRight"; "toReversed";
    "toSorted"; "toSpliced"; "with" ].

(** String-keyed members of [Function.prototype]. *)
Definition Function_prototype_names : list string :=
  [ "apply"; "bind"; "call"; "arguments"; "caller" ].

Definition mem (key : string) (l : list string) : bool :=
  existsb (String.eqb key) l.

(** The names a value finds on its prototype chain.  The methods that
    [String.prototype], [Number.prototype] and [Boolean.prototype] add for a
    primitive are left out: of a primitive the verifier reads [name], [type]
    and own indices only. *)
Definition prototype_names (v : value) : list string :=
  match v with
  | VArray _ => Array_prototype_names ++ Object_prototype_names
  | VFunction _ => Function_prototype_names ++ Object_prototype_names
  | _ => Object_prototype_names
  end.

(** The prototype [v.__proto__] reads: an empty object of the same tag. *)
Definition prototype_of (v : value) : value :=
  match v with
  | VArray _ => VArray []
  | VFunction _ => VFunction ""
  | _ => VObject (class_tag v) []
  end.

(** Own properties that [Object.keys] does not list.  A function is known
    by its name only: [length] and [prototype] are those of a function
    declared with that name and no parameters, a plain object for the
    prototype; the prototype a class defines members on is not
    represented. *)
Definition hidden_own (v : value) (key : string) : option value :=
  match v with
  | VArray elems =>
      if key =? "length" then Some (VNumber (Z.of_nat (List.length elems)))
      else None
  | VString s =>
      if key =? "length" then Some (VNumber (Z.of_nat (String.length s)))
      else None
  | VFunction name =>
      if key =? "name" then Some (VString name)
      else if key =? "length" then Some (VNumber 0)
      else if key =? "prototype" then Some (VObject "Object" [])
      else None
  | _ => None
  end.

(** What the prototype chain answers for [key]: the constructor, the
    prototype itself, or the method of that name.  Reading [arguments] or
    [caller] of a strict-mode function throws. *)
Definition inherited (v : value) (key : string) : option (result value) :=
  if mem key (prototype_names v) then
    if key =? "constructor" then Some (Ok (VFunction (class_tag v)))
    else if key =? "__proto__" then Some (Ok (prototype_of v))
    else if mem key ["arguments"; "caller"] then Some (Throw TypeError)
    else Some (Ok (VFunction key))
  else None.

(** [v[key]]: a [TypeError] on [undefined] and [null], otherwise the own
    property, else the inherited one, else [undefined]. *)
Definition get (v : value) (key : string) : result value :=
  match v with
  | VUndefined | VNull => Throw TypeError
  | _ =>
      match lookup key (own_props v) with
      | Some x => Ok x
      | None =>
          match hidden_own v key with
          | Some x => Ok x
          | None =>
              match inherited v key with
              | Some r => r
              | None => Ok VUndefined
              end
          end
      end
  end.

(** [Reflect.has(target, key)]: a [TypeError] unless [target] is an object;
    otherwise whether [key] is an own or an inherited property. *)
Definition Reflect_has (target : value) (key : string) : result bool :=
  match target with
  | VFunction _ | VArray _ | VObject _ _ =>
      Ok (match lookup key (own_props target) with
          | Some _ => true
          | None =>
              match hidden_own target key with
              | Some _ => true
              | None => mem key (prototype_names target)
              end
          end)
  | _ => Throw TypeError
  end.

(** ** Type.from *)

(** [\w]. *)
Definition is_word (c : ascii) : bool :=
  let n := nat_of_ascii c in
  ((48 <=? n) && (n <=? 57) || (65 <=? n) && (n <=? 90)
   || (97 <=? n) && (n <=? 122) || (n =? 95))%nat.

(** Longest prefix of word characters, and what follows it. *)
Fixpoint word_run (s : string) : string * string :=
  match s with
  | EmptyString => (EmptyString, EmptyString)
  | String c s' =>
      if is_word c then let (w, rest) := word_run s' in (String c w, rest)
      else (EmptyString, s)
  end.

(** [/t (\w+)]/] anchored at the start of [s]: the captured group.  The
    group is greedy and ["]"] is no word character, so only the longest run
    can be followed by it. *)
Definition match_here (s : string) : option string :=
  match s with
  | String "t" (String " " s') =>
      match word_run s' with
      | (String c w, String "]" _) => Some (String c w)
      | _ => None
      end
  | _ => None
  end.

(** [/t (\w+)]/.exec(s)]: the group of the leftmost match, [None] for [null]. *)
Fixpoint regex_exec (s : string) : option string :=
  match match_here s with
  | Some w => Some w
  | None =>
      match s with
      | EmptyString => None
      | String _ s' => regex_exec s'
      end
  end.

(** [Object.prototype.toString.call(v)]. *)
Definition Object_prototype_toString (v : value) : string :=
  "[object " ++ class_tag v ++ "]".

Definition is_identifier_start (c : ascii) : bool :=
  let n := nat_of_ascii c in
  ((65 <=? n) && (n <=? 90) || (97 <=? n) && (n <=? 122)
   || (n =? 95) || (n =? 36))%nat.

Definition is_identifier_part (c : ascii) : bool :=
  is_word c || (nat_of_ascii c =? 36)%nat.

Fixpoint all_chars (p : ascii -> bool) (s : string) : bool :=
  match s with
  | EmptyString => true
  | String c s' => p c && all_chars p s'
  end.

(** Reserved words that are no expression on their own. *)
Definition reserved_words : list string :=
  [ "break"; "case"; "catch"; "class"; "const"; "continue"; "debugger";
    "default"; "delete"; "do"; "else"; "enum"; "export"; "extends";
    "finally"; "for"; "function"; "if"; "import"; "in"; "instanceof"; "new";
    "return"; "super"; "switch"; "throw"; "try"; "typeof"; "var"; "void";
    "while"; "with"; "implements"; "interface"; "let"; "package"; "private";
    "protected"; "public"; "static"; "yield" ].

Definition is_digit (c : ascii) : bool :=
  let n := nat_of_ascii c in ((48 <=? n) && (n <=? 57))%nat.

(** A decimal integer literal of strict code: digits without a leading
    zero, or the one digit [0]. *)
Definition is_decimal_literal (s : string) : bool :=
  match s with
  | EmptyString => false
  | String c EmptyString => is_digit c
  | String c s' => is_digit c && negb (nat_of_ascii c =? 48)%nat
                   && all_chars is_digit s'
  end.

(** Whether [eval(`(typeof ${name} !== 'undefined' && ${name})`)] parses: the
    name must read as an operand.  A string does when it is an identifier
    or a decimal integer (the empty name of an anonymous function does
    not); the primitives [undefined], [null], booleans and numbers print as
    literals; the text of an array or an object does not parse.
    [main?.[out.name]] comes first in the source and skips [eval] when that
    global is truthy; the names of the global bindings are identifiers,
    which [eval] accepts as well.  The names accepted here are names [eval]
    accepts; a name that spells another kind of expression is taken to
    raise, and nothing below is concluded from a raise of this kind. *)
Definition eval_parses (name : value) : bool :=
  match name with
  | VString s =>
      match s with
      | EmptyString => false
      | String c s' =>
          is_identifier_start c && all_chars is_identifier_part s'
          && negb (mem s reserved_words)
          || is_decimal_literal s
      end
  | VArray _ | VObject _ _ => false
  | _ => true
  end.

(** [Type.from(object).name].  The [type] member of the result is not read
    by the verifier, but computing it can throw: [out.type] is what [eval]
    answers. *)
Definition Type_from (object : value) : outcome value :=
  match regex_exec (Object_prototype_toString object) with
  | None => ret VNull
  | Some name1 =>
      name <- (if name1 =? "Function" then lift (get object "name")
               else ret (VString name1)) ;;
      if eval_parses name then ret name else raise SyntaxError
  end.

(** ** Type.classFromFormat and the synthesized constructor *)

(** A class synthesized by [classFromFormat]: its [name], the [format] its
    constructor closes over, and the [PARAMS] and [FORMAT] members of its
    prototype. *)
Record synthesized : Type := {
  class_name : string;
  class_format : value;
  class_PARAMS : list string;
  class_FORMAT : value
}.

(** [{...v}]: the own enumerable properties on a fresh object literal. *)
Definition spread (v : value) : value := VObject "Object" (own_props v).

Definition rbind {A B} (r : result A) (k : A -> result B) : result B :=
  match r with
  | Ok a => k a
  | Throw e => Throw e
  end.

(** [Type.classFromFormat(typeName, format)]. *)
Definition classFromFormat (typeName : string) (format : value)
  : result synthesized :=
  rbind (Object_keys format) (fun keys =>
  Ok {| class_name := typeName;
        class_format := format;
        class_PARAMS := keys;
        class_FORMAT := spread format |}).

(** [object[key] = v] on own data properties: the value of an existing key
    is replaced in place and a new key is listed last.  The runtime lists
    keys that are array indices before the others; keys assigned in the
    order [Object.keys] gave them, as the constructor assigns them, keep
    that order.  The key [__proto__] of an instance under construction is
    no data property, see [assign_property]. *)
Fixpoint set_prop (key : string) (v : value) (props : list (string * value))
  : list (string * value) :=
  match props with
  | [] => [(key, v)]
  | (k, x) :: props' =>
      if k =? key then (k, v) :: props' else (k, x) :: set_prop key v props'
  end.

(** [Object.fromEntries(entries)]. *)
Definition Object_fromEntries (entries : list (string * value)) : value :=
  VObject "Object"
    (fold_left (fun props e => set_prop (fst e) (snd e) props) entries []).

(** [keys.map((key, index) => [key, values[index]])] for an array [values],
    counting [index] from [i]. *)
Fixpoint positional (i : nat) (keys : list string) (values : list value)
  : list (string * value) :=
  match keys with
  | [] => []
  | key :: keys' => (key, nth i values VUndefined) :: positional (S i) keys' values
  end.

(** [this.__proto__ = v], which runs the setter [Object.prototype] defines:
    an object or [null] becomes the prototype of [this], any other value is
    ignored, and no own property is created.  [this] is the tag and the own
    properties of the instance; it takes the tag of its new prototype.  The
    properties it would read through a prototype that has own properties are
    not represented. *)
Definition set_prototype (v : value) (this : string * list (string * value))
  : string * list (string * value) :=
  match v with
  | VObject tag _ => (tag, snd this)
  | VNull | VArray _ | VFunction _ => ("Object", snd this)
  | _ => this
  end.

(** [kvp[key] = v] on the instance under construction. *)
Definition assign_property (key : string) (v : value)
  (this : string * list (string * value)) : string * list (string * value) :=
  if key =? "__proto__" then set_prototype v this
  else (fst this, set_prop key v (snd this)).

(** [keys.reduce((kvp, key) => { kvp[key] = values[key]; return kvp }, this)]
    on the tag and the own properties of [this]. *)
Fixpoint assign (values : value) (keys : list string)
  (this : string * list (string * value))
  : result (string * list (string * value)) :=
  match keys with
  | [] => Ok this
  | key :: keys' =>
      rbind (get values key)
            (fun v => assign values keys' (assign_property key v this))
  end.

(** [new type(...args)] for a synthesized class [type]. *)
Definition construct (type : synthesized) (args : list value) : result value :=
  rbind (Object_keys (class_format type)) (fun keys =>
  let arg0 := nth 0 args VUndefined in
  let values := if typeof arg0 =? "object" then arg0 else VArray args in
  let values :=
    match values with
    | VArray elems => Object_fromEntries (positional 0 keys elems)
    | _ => values
    end in
  rbind (assign values keys (class_name type, [])) (fun this =>
  Ok (VObject (fst this) (snd this)))).

(** ** The Type class *)

Record descriptor : Type := {
  typeName : string;
  format : value;
  type : synthesized
}.

(** [new Type(typeName, format)], the constructor argument left out. *)
Definition new_Type (typeName : string) (format : value) : result descriptor :=
  rbind (classFromFormat typeName format) (fun type =>
  Ok {| typeName := typeName; format := format; type := type |}).

(** [Type.ArrayOf]: the class of [new Type('ArrayOf', { type: Function })]. *)
Definition ArrayOf : result synthesized :=
  rbind (new_Type "ArrayOf" (VObject "Object" [("type", VFunction "Function")]))
        (fun t => Ok (type t)).

(** [new Type.Optional(type)]. *)
Definition Optional (type : value) : value := VObject "Optional" [("type", type)].

(** ** Type.prototype.verify *)

(** [keys.every(callback)]: stops at the first key whose callback answers
    [false] or throws. *)
Fixpoint every (callback : string -> outcome bool) (keys : list string)
  : outcome bool :=
  match keys with
  | [] => ret true
  | key :: rest =>
      b <- callback key ;;
      if b then every callback rest else ret false
  end.

(** [const isOpt = (type) => Type.from(type).name === Type.Optional.name]. *)
Definition isOpt (type : value) : outcome bool :=
  name <- Type_from type ;;
  ret (strict_equals name (VString "Optional")).

(** [const optType = (type) => isOpt(type) ? type.type : type]. *)
Definition optType (type : value) : outcome value :=
  opt <- isOpt type ;;
  if opt then lift (get type "type") else ret type.

(** A call of a function that an object holds under [toString] or
    [valueOf].  A function is known by its name only: [String], [Number]
    and [Boolean] answer a primitive when called; what a function of another
    name does is not known, and it is not taken to answer one. *)
Definition answers_primitive (method : value) : bool :=
  match method with
  | VFunction name => mem name ["String"; "Number"; "Boolean"]
  | _ => false
  end.

(** The conversion of an object to a primitive a template literal asks
    for.  Without an own [toString] the inherited one answers a string.  An
    own [toString] that is a function is called and decides; one that is no
    function is skipped for [valueOf]: an own one is called if it is a
    function, and the inherited one answers the object itself, which is a
    [TypeError]. *)
Definition object_converts (props : list (string * value)) : bool :=
  match lookup "toString" props with
  | None => true
  | Some (VFunction name) => answers_primitive (VFunction name)
  | Some _ =>
      match lookup "valueOf" props with
      | Some method => answers_primitive method
      | None => false
      end
  end.

(** Whether [`${v}`] converts [v] to a string: primitives and functions
    do, an array joins the conversions of its elements, an object converts
    to a primitive first. *)
Fixpoint converts (v : value) : bool :=
  match v with
  | VArray elems => forallb converts elems
  | VObject _ props => object_converts props
  | _ => true
  end.

(** [`${v}`] inside a template literal: a [TypeError] when [v] has no
    conversion. *)
Definition interpolate (v : value) : result unit :=
  if converts v then Ok tt else Throw TypeError.

(** Lines 191 to 204 of the callback, for a key the object has: the
    recursive verification of an object or array against an object-typed
    specifier, otherwise the comparison of the two type names.  The template
    literal of the warning converts both names before [console.warn] is
    called.  [recurse] is [this.verify(_, _, allowDuckTyping)]. *)
Definition match_value (recurse : value -> value -> outcome bool)
  (key : string) (v fType fName : value) : outcome bool :=
  oName <- Type_from v ;;
  if (strict_equals oName (VString "Object")
      || strict_equals oName (VString "Array"))
     && (typeof fType =? "object")
  then recurse v fType
  else
    let typesMatch := strict_equals fName oName in
    (if typesMatch then ret tt
     else lift (interpolate fName) ;;; lift (interpolate oName) ;;;
          warn (Mismatch key fName oName)) ;;;
    ret typesMatch.

(** The callback of [every] in [verify], lines 176 to 205. *)
Definition field (recurse : value -> value -> outcome bool)
  (object format : value) (key : string) : outcome bool :=
  fType <- (spec <- lift (get format key) ;; optType spec) ;;
  fName <- lift (get fType "name") ;;
  absent <- (spec <- lift (get format key) ;;
             opt <- isOpt spec ;;
             if opt then has <- lift (Reflect_has object key) ;; ret (negb has)
             else ret false) ;;
  if absent then ret true
  else
    has <- lift (Reflect_has object key) ;;
    if negb has then warn (MissingRequired key) ;;; ret false
    else
      v <- lift (get object key) ;;
      match_value recurse key v fType fName.

(** Nesting depth of a value: how deep [verify] can recurse into a format. *)
Fixpoint depth (v : value) : nat :=
  match v with
  | VArray elems => S (list_max (map depth elems))
  | VObject _ props => S (list_max (map (fun p => depth (snd p)) props))
  | _ => 0
  end.

(** [const format = useFormat || this.format]. *)
Definition format_of (this : descriptor) (useFormat : value) : value :=
  if truthy useFormat then useFormat else format this.

(** [verify] on a call stack of [fuel] frames: one frame per nested call,
    a [RangeError] when the stack is exhausted. *)
Fixpoint verify_fuel (fuel : nat) (this : descriptor)
  (object useFormat allowDuckTyping : value) : outcome bool :=
  match fuel with
  | O => raise RangeError
  | S fuel' =>
      let format := format_of this useFormat in
      keys <- lift (Object_keys format) ;;
      every (field (fun o f => verify_fuel fuel' this o f allowDuckTyping)
                   object format) keys
  end.

(** [this.verify(object, useFormat, allowDuckTyping)].  The recursion follows
    the format, a finite tree, so a stack one frame deeper than the format
    is never exhausted (see [verify_fuel_stable]). *)
Definition verify (this : descriptor) (object useFormat allowDuckTyping : value)
  : outcome bool :=
  verify_fuel (S (depth (format_of this useFormat))) this
              object useFormat allowDuckTyping.

(** The defaults of the optional parameters: [useFormat = null] and
    [allowDuckTyping = true]. *)
Definition verify_default (this : descriptor) (object : value) : outcome bool :=
  verify this object VNull (VBoolean true).

(** ** The formats and objects of the test suite *)

Definition String_ : value := VFunction "String".
Definition Number_ : value := VFunction "Number".

Definition object_literal (props : list (string * value)) : value :=
  VObject "Object" props.

(** [new Type('Person', { name: String, age: Number })], the descriptor of
    the first tests. *)
Definition PersonType : descriptor :=
  {| typeName := "Person";
     format := object_literal [("name", String_); ("age", Number_)];
     type := {| class_name := "Person";
                class_format := object_literal [("name", String_); ("age", Number_)];
                class_PARAMS := ["name"; "age"];
                class_FORMAT := object_literal [("name", String_); ("age", Number_)] |} |}.

(** [new Type.ArrayOf(inner)]. *)
Definition new_ArrayOf (inner : value) : result value :=
  rbind ArrayOf (fun c => construct c [inner]).

(** ** Descriptors over a store of format objects

    [new Type(typeName, format)] keeps the [format] object it is given, and
    the caller still holds it.  To observe what a later mutation of that
    object does, format objects live in a store and are named by their
    address; the specifiers inside a format remain values. *)
Module Store.
Import stdpp.gmap.

Definition loc : Type := nat.

(** The own properties of every live object literal. *)
Abbreviation heap := (gmap loc (list (string * value))).

(** A synthesized class: [class_format] is the object the constructor
    closes over, [class_FORMAT] the one [{...format}] allocates. *)
Record class_ref : Type := {
  class_name : string;
  class_format : loc;
  class_PARAMS : list string;
  class_FORMAT : loc
}.

Record descriptor_ref : Type := {
  typeName : string;
  format : loc;
  type : class_ref
}.

(** The value at an address, [undefined] for no object. *)
Definition deref (h : heap) (l : loc) : value :=
  match h !! l with
  | Some props => VObject "Object" props
  | None => VUndefined
  end.

(** An address no live object has. *)
Definition alloc (h : heap) : loc := fresh (dom h).

(** [Type.classFromFormat(typeName, format)]: [Object.keys(format)], then
    the copy [{...format}] at a new address. *)
Definition classFromFormat (typeName : string) (format : loc) (h : heap)
  : result (class_ref * heap) :=
  rbind (Object_keys (deref h format)) (fun keys =>
  let copy := alloc h in
  Ok ({| class_name := typeName;
         class_format := format;
         class_PARAMS := keys;
         class_FORMAT := copy |},
      <[copy := own_props (deref h format)]> h)).

(** [new Type(typeName, format)]: [this.format = format] stores the
    address it was given. *)
Definition new_Type (typeName : string) (format : loc) (h : heap)
  : result (descriptor_ref * heap) :=
  rbind (classFromFormat typeName format h) (fun '(type, h') =>
  Ok ({| typeName := typeName; format := format; type := type |}, h')).

(** [object[key] = v] by the holder of address [l]: adds or retypes a key. *)
Definition assign_key (l : loc) (key : string) (v : value) (h : heap) : heap :=
  alter (set_prop key v) l h.

(** [delete object[key]] by the holder of address [l]. *)
Definition delete_key (l : loc) (key : string) (h : heap) : heap :=
  alter (List.filter (fun p => negb (String.eqb (fst p) key))) l h.

(** [descriptor.format], as a reader of the descriptor sees it. *)
Definition observed_format (d : descriptor_ref) (h : heap) : value :=
  deref h (format d).

(** The [FORMAT] member of the synthesized class's prototype. *)
Definition observed_FORMAT (d : descriptor_ref) (h : heap) : value :=
  deref h (class_FORMAT (type d)).

(** The descriptor with every address read in the store. *)
Definition view (d : descriptor_ref) (h : heap) : descriptor :=
  Build_descriptor
    (typeName d)
    (deref h (format d))
    (Build_synthesized
       (class_name (type d))
       (deref h (class_format (type d)))
       (class_PARAMS (type d))
       (deref h (class_FORMAT (type d)))).

(** [descriptor.verify(object)] in store [h]. *)
Definition verify (d : descriptor_ref) (h : heap) (object : value)
  : outcome bool :=
  verify_default (view d h) object.

End Store.

(** Arrays and objects: the values [verify] recurses into. *)
Definition container (v : value) : bool :=
  match v with
  | VArray _ | VObject _ _ => true
  | _ => false
  end.

(** Whether [isOpt] takes a specifier for an [Optional] wrapper. *)
Definition is_Optional (spec : value) : bool :=
  match returned (isOpt spec) with
  | Ok true => true
  | _ => false
  end.


(** A specifier [Type.from] resolves and whose [name] can be read: a
    function or class with a proper name, an array or an object. *)
Definition names_a_type (spec : value) : bool :=
  match returned (Type_from spec), get spec "name" with
  | Ok _, Ok _ => true
  | _, _ => false
  end.

(** The last character of a string. *)
Fixpoint last_char (s : string) : option ascii :=
  match s with
  | EmptyString => None
  | String c EmptyString => Some c
  | String _ s' => last_char s'
  end.

(** ** Objects and formats used as examples *)

Definition john : value :=
  object_literal [("name", VString "John"); ("age", VNumber 30)].

Definition john_with_extras : value :=
  object_literal [("id", VNumber 7); ("name", VString "John");
                  ("age", VNumber 30); ("admin", VBoolean true)].

Definition profile_format : value :=
  object_literal [("name", String_); ("nick", Optional String_)].


Definition nick_format : value := object_literal [("nick", Optional String_)].

Definition ProfileType : descriptor :=
  {| typeName := "Profile";
     format := nick_format;
     type := {| class_name := "Profile";
                class_format := nick_format;
                class_PARAMS := ["nick"];
                class_FORMAT := nick_format |} |}.

Module StoreExample.
Import stdpp.gmap.
Import Store.

(** The caller's format object [{ name: String }] at address 0. *)
Definition caller_heap : heap := {[ 0 := [("name", String_)] ]}.

(** What [new Type('Person', format)] returns in [caller_heap]. *)
Definition Person_ref : descriptor_ref :=
  {| typeName := "Person"; format := 0;
     type := {| class_name := "Person"; class_format := 0;
                class_PARAMS := ["name"]; class_FORMAT := 1 |} |}.

Definition Person_heap : heap := <[1 := [("name", String_)]]> caller_heap.
End StoreExample.

(** ** MakeDescriptor and the meta classes *)




(** [Type.Null], [Type.Undefined], [Type.Any] and [Type.None]: each getter
    answers a class of that name with an empty body. *)
Definition Type_Null : value := VFunction "Null".
Definition Type_Undefined : value := VFunction "Undefined".
Definition Type_Any : value := VFunction "Any".
Definition Type_None : value := VFunction "None".

(** A call that prints nothing. *)
Definition silent {A} (m : outcome A) : Prop := warnings m = [].

(** A call that prints one warning when it answers [false] and nothing
    when it answers [true] or throws. *)
Definition warns_once_on_false (m : outcome bool) : Prop :=
  match m with
  | (w, Ok false) => exists d, w = [d]
  | (w, _) => w = []
  end.

(** Values that are no function and no instance of a class: primitives,
    arrays and object literals. *)
Definition plain (v : value) : bool :=
  match v with
  | VFunction _ => false
  | VObject tag _ => tag =? "Object"
  | _ => true
  end.

(** The list the synthesized constructor assigns by position, if any: the
    first argument when it is an array, the arguments themselves when the
    first one is no object. *)
Definition positional_values (args : list value) : option (list value) :=
  match nth 0 args VUndefined with
  | VArray elems => Some elems
  | VNull | VObject _ _ => None
  | _ => Some args
  end.

(** [o[key]] of an object, which never throws. *)
Definition property (o : value) (key : string) : value :=
  match get o key with
  | Ok v => v
  | Throw _ => VUndefined
  end.

(** Targets [Reflect.has] accepts: functions, arrays and objects. *)
Definition is_object (v : value) : bool :=
  match v with
  | VFunction _ | VArray _ | VObject _ _ => true
  | _ => false
  end.

(** A format with a nested format. *)
Definition owner_format : value :=
  object_literal [("owner", object_literal [("name", String_)])].

Module StoreOps.
Import stdpp.gmap.
Import Store.


End StoreOps.


(** * Properties *)

(** ** The outcome monad and [every] *)

Section outcome_facts.
Context {A B : Type}.

Lemma bind_ext (m : outcome A) (k1 k2 : A -> outcome B) :
  (forall a, k1 a = k2 a) -> bind m k1 = bind m k2.
Proof.
  intros H. destruct m as [w [a|e]]; simpl; [rewrite H|]; reflexivity.
Qed.

Lemma bind_ext_ok (m : outcome A) (k1 k2 : A -> outcome B) :
  (forall w a, m = (w, Ok a) -> k1 a = k2 a) -> bind m k1 = bind m k2.
Proof.
  intros H. destruct m as [w [a|e]]; simpl; [rewrite (H w a eq_refl)|]; reflexivity.
Qed.

Lemma bind_lift_ok (r : result A) (a : A) (k : A -> outcome B) :
  r = Ok a -> bind (lift r) k = k a.
Proof. intros ->. unfold lift, bind. destruct (k a). reflexivity. Qed.

Lemma bind_returned_ok (m : outcome A) (k : A -> outcome B) (b : B) :
  returned (bind m k) = Ok b ->
  exists a, returned m = Ok a /\ returned (k a) = Ok b.
Proof.
  destruct m as [w [a|e]]; simpl.
  - destruct (k a) as [w' r] eqn:E. simpl. intros ->. exists a. rewrite E. auto.
  - discriminate.
Qed.
End outcome_facts.

Lemma every_ext_in (c1 c2 : string -> outcome bool) (keys : list string) :
  (forall key, In key keys -> c1 key = c2 key) -> every c1 keys = every c2 keys.
Proof.
  induction keys as [|key rest IH]; intros H; simpl; [reflexivity|].
  rewrite (H key) by (left; reflexivity).
  apply bind_ext. intros [|]; [|reflexivity].
  apply IH. intros k Hk. apply H. right. exact Hk.
Qed.

Lemma every_true_inv (c : string -> outcome bool) (keys : list string) :
  returned (every c keys) = Ok true ->
  forall key, In key keys -> returned (c key) = Ok true.
Proof.
  induction keys as [|k rest IH]; simpl; intros H key Hin; [contradiction|].
  apply bind_returned_ok in H. destruct H as [b [Hb H]].
  destruct b; [|discriminate].
  destruct Hin as [<-|Hin]; [exact Hb|]. apply IH; assumption.
Qed.

Lemma every_all_true (c : string -> outcome bool) (keys : list string) :
  (forall key, In key keys -> returned (c key) = Ok true) ->
  returned (every c keys) = Ok true.
Proof.
  induction keys as [|k rest IH]; intros H; simpl; [reflexivity|].
  pose proof (H k (or_introl eq_refl)) as Hk.
  destruct (c k) as [w [[|]|e]]; simpl in Hk; try discriminate.
  simpl. specialize (IH (fun key Hin => H key (or_intror Hin))).
  destruct (every c rest) as [w' r]. simpl in *. exact IH.
Qed.

(** The keys before the first one that does not pass have passed; the
    outcome of [every] is then decided by that key. *)
Lemma every_first_false (c : string -> outcome bool)
  (before after : list string) (key : string) (w : list diagnostic) :
  (forall k, In k before -> returned (c k) = Ok true) ->
  c key = (w, Ok false) ->
  exists w0, every c (before ++ key :: after) = (w0 ++ w, Ok false).
Proof.
  induction before as [|k rest IH]; intros Hb Hk; simpl.
  - rewrite Hk. simpl. exists []. rewrite app_nil_r. reflexivity.
  - pose proof (Hb k (or_introl eq_refl)) as H.
    destruct (c k) as [wk [[|]|e]]; simpl in H; try discriminate.
    destruct (IH (fun k' Hin => Hb k' (or_intror Hin)) Hk) as [w0 E].
    simpl. rewrite E. exists (wk ++ w0). rewrite app_assoc. reflexivity.
Qed.

(** ** Depth of what a format holds *)

Lemma lookup_In {A} (key : string) (l : list (string * A)) (x : A) :
  lookup key l = Some x -> In x (map snd l).
Proof.
  induction l as [|[k v] l IH]; simpl; [discriminate|].
  destruct (k =? key); [intros [= ->]; left; reflexivity|].
  intros H. right. apply IH. exact H.
Qed.

Lemma lookup_keys {A} (key : string) (l : list (string * A)) :
  In key (map fst l) -> exists x, lookup key l = Some x.
Proof.
  induction l as [|[k v] l IH]; simpl; [contradiction|].
  intros [->|H].
  - rewrite String.eqb_refl. eauto.
  - destruct (k =? key); eauto.
Qed.

Lemma In_snd_combine {A B} (a : list A) (b : list B) (x : B) :
  In x (map snd (combine a b)) -> In x b.
Proof.
  revert b. induction a as [|a0 a IH]; intros [|b0 b]; simpl; try contradiction.
  intros [->|H]; [left; reflexivity|right; apply IH; exact H].
Qed.

Lemma depth_In (x : value) (l : list value) :
  In x l -> depth x <= list_max (map depth l).
Proof.
  intros H.
  assert (Hle : list_max (map depth l) <= list_max (map depth l)) by lia.
  rewrite list_max_le in Hle. rewrite Forall_forall in Hle.
  apply Hle. apply in_map. exact H.
Qed.

Lemma own_props_depth (v x : value) (key : string) :
  lookup key (own_props v) = Some x -> container x = true ->
  depth x < depth v.
Proof.
  intros H Hc. apply lookup_In in H.
  destruct v; simpl in *; try contradiction.
  - apply In_snd_combine in H. exfalso.
    induction s; simpl in H; [contradiction|].
    destruct H as [<-|H]; [discriminate|auto].
  - apply In_snd_combine in H. apply depth_In in H. lia.
  - rewrite <- (map_map snd depth). apply depth_In in H. lia.
Qed.

Lemma get_own (v : value) (key : string) :
  In key (map fst (own_props v)) ->
  exists x, lookup key (own_props v) = Some x /\ get v key = Ok x.
Proof.
  intros H. destruct (lookup_keys _ _ H) as [x E]. exists x. split; [exact E|].
  destruct v; simpl in *; try contradiction; rewrite E; reflexivity.
Qed.

Lemma inherited_type (v : value) : inherited v "type" = None.
Proof. destruct v; reflexivity. Qed.

Lemma get_type (v x : value) :
  get v "type" = Ok x ->
  lookup "type" (own_props v) = Some x \/ x = VUndefined.
Proof.
  unfold get. destruct v; try discriminate;
    (destruct (lookup "type" (own_props _)) as [y|] eqn:E;
     [intros [= ->]; left; reflexivity|]);
    simpl; intros [= <-]; right; reflexivity.
Qed.

Lemma Type_from_silent (v : value) : warnings (Type_from v) = [].
Proof.
  unfold Type_from.
  destruct (regex_exec _) as [n|]; [|reflexivity].
  unfold bind, lift, ret, raise.
  destruct (n =? "Function").
  - destruct (get v "name") as [x|e]; [|reflexivity].
    destruct (eval_parses x); reflexivity.
  - destruct (eval_parses (VString n)); reflexivity.
Qed.

(** The specifier [optType] answers is the wrapper's own or the wrapped one. *)
Lemma optType_depth (spec fType : value) (w : list diagnostic) :
  optType spec = (w, Ok fType) -> container fType = true ->
  depth fType <= depth spec.
Proof.
  unfold optType, isOpt. intros H Hc.
  destruct (Type_from spec) as [w0 [n|e]]; simpl in H; [|discriminate].
  destruct (strict_equals n (VString "Optional")); simpl in H.
  - destruct (get spec "type") as [x|e] eqn:E; simpl in H; [|discriminate].
    injection H as _ ->. apply get_type in E. destruct E as [E| ->]; [|discriminate].
    apply own_props_depth in E; [lia|exact Hc].
  - injection H as _ ->. lia.
Qed.

Lemma depth_container (v : value) :
  depth v = 0 <-> container v = false.
Proof. destruct v; simpl; split; intros H; try reflexivity; discriminate. Qed.

(** What [format[key]] unwraps to, for a key of the format, lies strictly
    inside the format whenever it is an array or an object. *)
Lemma specifier_depth (format spec fType : value) (key : string)
  (w : list diagnostic) :
  In key (map fst (own_props format)) ->
  get format key = Ok spec ->
  optType spec = (w, Ok fType) -> container fType = true ->
  depth fType < depth format.
Proof.
  intros Hin Hget Hopt Hc.
  pose proof (optType_depth _ _ _ Hopt Hc) as Hle.
  destruct (get_own _ _ Hin) as [x [Hl Hx]].
  rewrite Hget in Hx. injection Hx as <-.
  destruct (container spec) eqn:Hs.
  - pose proof (own_props_depth _ _ _ Hl Hs). lia.
  - apply depth_container in Hs.
    assert (depth fType <> 0) by (rewrite depth_container; congruence). lia.
Qed.

(** ** The recursion of [verify] *)

Lemma typeof_object (v : value) :
  (typeof v =? "object") = true -> v = VNull \/ container v = true.
Proof. destruct v; simpl; intros H; try discriminate; auto. Qed.

(** [match_value] calls [recurse] on arrays and objects only. *)
Lemma match_value_ext (r1 r2 : value -> value -> outcome bool)
  (key : string) (v fType fName : value) :
  (typeof fType =? "object") = true -> fType <> VNull ->
  r1 v fType = r2 v fType ->
  match_value r1 key v fType fName = match_value r2 key v fType fName.
Proof.
  intros Ht Hn H. unfold match_value. apply bind_ext. intros oName.
  rewrite Ht, H. reflexivity.
Qed.

Lemma match_value_other (r1 r2 : value -> value -> outcome bool)
  (key : string) (v fType fName : value) :
  (typeof fType =? "object") = false ->
  match_value r1 key v fType fName = match_value r2 key v fType fName.
Proof.
  intros Ht. unfold match_value. apply bind_ext. intros oName.
  rewrite Ht, andb_false_r. reflexivity.
Qed.

(** The callback depends on [recurse] only at the specifiers found under
    the key, which lie strictly inside the format. *)
Lemma field_ext (r1 r2 : value -> value -> outcome bool)
  (object format : value) (key : string) :
  In key (map fst (own_props format)) ->
  (forall v f, container f = true -> depth f < depth format ->
               r1 v f = r2 v f) ->
  field r1 object format key = field r2 object format key.
Proof.
  intros Hin H. unfold field.
  apply bind_ext_ok. intros w fType HfType.
  apply bind_ext_ok. intros w1 fName HfName.
  apply bind_ext. intros absent. destruct absent; [reflexivity|].
  apply bind_ext. intros has. destruct (negb has); [reflexivity|].
  apply bind_ext. intros v.
  destruct (typeof fType =? "object") eqn:Ht;
    [|apply match_value_other; exact Ht].
  assert (Hnn : fType <> VNull).
  { intros ->. simpl in HfName. discriminate. }
  apply match_value_ext; [exact Ht|exact Hnn|].
  destruct (typeof_object _ Ht) as [->|Hc]; [contradiction|].
  apply H; [exact Hc|].
  destruct (get_own _ _ Hin) as [spec [_ Hget]].
  rewrite (bind_lift_ok _ _ _ Hget) in HfType.
  eapply specifier_depth; eauto.
Qed.

Lemma field_ext_all (r1 r2 : value -> value -> outcome bool)
  (object format : value) (key : string) :
  (forall v f, r1 v f = r2 v f) ->
  field r1 object format key = field r2 object format key.
Proof.
  intros H. unfold field.
  apply bind_ext. intros fType. apply bind_ext. intros fName.
  apply bind_ext. intros absent. destruct absent; [reflexivity|].
  apply bind_ext. intros has. destruct (negb has); [reflexivity|].
  apply bind_ext. intros v. unfold match_value.
  apply bind_ext. intros oName. rewrite H. reflexivity.
Qed.

Lemma Object_keys_own (v : value) (keys : list string) (w : list diagnostic) :
  lift (Object_keys v) = (w, Ok keys) -> keys = map fst (own_props v).
Proof.
  unfold lift, Object_keys. destruct v; intros [= _ <-]; reflexivity.
Qed.

Lemma container_truthy (this : descriptor) (f : value) :
  container f = true -> format_of this f = f.
Proof. destruct f; simpl; intros H; try discriminate; reflexivity. Qed.

(** A call stack deeper than the format is never exhausted: any two such
    stacks give the same outcome. *)
Lemma verify_fuel_stable (n m : nat) (this : descriptor)
  (object useFormat allowDuckTyping : value) :
  depth (format_of this useFormat) < n ->
  depth (format_of this useFormat) < m ->
  verify_fuel n this object useFormat allowDuckTyping
  = verify_fuel m this object useFormat allowDuckTyping.
Proof.
  revert m object useFormat.
  induction n as [|n IH]; intros m object useFormat Hn Hm; [lia|].
  destruct m as [|m]; [lia|]. cbn [verify_fuel].
  apply bind_ext_ok. intros w keys Hkeys.
  apply Object_keys_own in Hkeys. subst keys.
  apply every_ext_in. intros key Hin.
  apply field_ext; [exact Hin|].
  intros v f Hc Hd.
  apply IH; rewrite (container_truthy _ _ Hc); lia.
Qed.

(** The defining equation of [verify], as the source reads. *)
Lemma verify_unfold (this : descriptor)
  (object useFormat allowDuckTyping : value) :
  verify this object useFormat allowDuckTyping
  = (keys <- lift (Object_keys (format_of this useFormat)) ;;
     every (field (fun o f => verify this o f allowDuckTyping)
                  object (format_of this useFormat)) keys).
Proof.
  unfold verify at 1. cbn [verify_fuel].
  apply bind_ext_ok. intros w keys Hkeys.
  apply Object_keys_own in Hkeys. subst keys.
  apply every_ext_in. intros key Hin.
  apply field_ext; [exact Hin|].
  intros v f Hc Hd. unfold verify.
  apply verify_fuel_stable; rewrite (container_truthy _ _ Hc); lia.
Qed.

Lemma verify_fuel_allowDuckTyping (n : nat) (this : descriptor)
  (object useFormat a b : value) :
  verify_fuel n this object useFormat a = verify_fuel n this object useFormat b.
Proof.
  revert object useFormat.
  induction n as [|n IH]; intros object useFormat; [reflexivity|].
  cbn [verify_fuel]. apply bind_ext. intros keys.
  apply every_ext_in. intros key _.
  apply field_ext_all. intros v f. apply IH.
Qed.

(** Two targets that answer [Reflect.has] and [object[key]] alike at the
    keys of the format are verified alike. *)
Lemma verify_agree (this : descriptor) (o1 o2 useFormat allowDuckTyping : value) :
  (forall key, In key (map fst (own_props (format_of this useFormat))) ->
     Reflect_has o1 key = Reflect_has o2 key /\ get o1 key = get o2 key) ->
  verify this o1 useFormat allowDuckTyping
  = verify this o2 useFormat allowDuckTyping.
Proof.
  intros H. rewrite !verify_unfold.
  apply bind_ext_ok. intros w keys Hkeys.
  apply Object_keys_own in Hkeys. subst keys.
  apply every_ext_in. intros key Hin.
  destruct (H key Hin) as [Hhas Hget].
  unfold field. rewrite Hhas, Hget. reflexivity.
Qed.

(** ** allowDuckTyping *)

(** C9: the [allowDuckTyping] argument does not alter verification:
    [verify(o, f, true)] and [verify(o, f, false)] have the same outcome,
    boolean, warnings and exceptions alike, for every object and format. *)
Theorem verify_allowDuckTyping_inert (this : descriptor)
  (object useFormat : value) :
  verify this object useFormat (VBoolean true)
  = verify this object useFormat (VBoolean false).
Proof. unfold verify. apply verify_fuel_allowDuckTyping. Qed.

(** ** Properties outside the format *)

(** C10: two targets that agree on key presence and hold the same value at
    every key of the format are verified alike; what else a target holds
    never affects the result. *)
Theorem verify_ignores_other_properties (this : descriptor)
  (o1 o2 useFormat allowDuckTyping : value) :
  (forall keys key,
     Object_keys (format_of this useFormat) = Ok keys -> In key keys ->
     Reflect_has o1 key = Reflect_has o2 key /\ get o1 key = get o2 key) ->
  verify this o1 useFormat allowDuckTyping
  = verify this o2 useFormat allowDuckTyping.
Proof.
  intros H. apply verify_agree. intros key Hin.
  apply (H (map fst (own_props (format_of this useFormat)))); [|exact Hin].
  destruct (format_of this useFormat); simpl in Hin; try contradiction;
    reflexivity.
Qed.

Lemma verify_ignores_other_properties_witness :
  verify PersonType john VNull (VBoolean true)
  = verify PersonType john_with_extras VNull (VBoolean true).
Proof.
  apply verify_ignores_other_properties.
  intros keys key [= <-] [<-|[<-|[]]]; split; reflexivity.
Defined.

(** ** Optional fields *)

Lemma bind_ret {A B} (a : A) (k : A -> outcome B) : bind (ret a) k = k a.
Proof. unfold bind, ret. destruct (k a). reflexivity. Qed.

Lemma isOpt_Optional (T : value) : isOpt (Optional T) = ret true.
Proof. reflexivity. Qed.

Lemma optType_Optional (T : value) : optType (Optional T) = ret T.
Proof. reflexivity. Qed.

Lemma Type_from_ret (v name : value) :
  returned (Type_from v) = Ok name -> Type_from v = ret name.
Proof.
  intros H. pose proof (Type_from_silent v) as Hs.
  destruct (Type_from v) as [w r]. simpl in *. subst. reflexivity.
Qed.

(** A name [Type.from] answers converts to a string. *)
Lemma Type_from_converts (v name : value) :
  returned (Type_from v) = Ok name -> converts name = true.
Proof.
  unfold Type_from.
  destruct (regex_exec _) as [n|]; [|intros [= <-]; reflexivity].
  unfold bind, lift, ret, raise.
  assert (H : forall x, eval_parses x = true -> converts x = true)
    by (intros x; destruct x; try reflexivity; discriminate).
  destruct (n =? "Function").
  - destruct (get v "name") as [x|e]; [|discriminate].
    destruct (eval_parses x) eqn:He; [|discriminate].
    intros [= <-]. exact (H _ He).
  - destruct (eval_parses (VString n)) eqn:He; [|discriminate].
    intros [= <-]. reflexivity.
Qed.

(** The comparison of the names, lines 199 to 204, when both convert. *)
Lemma names_compared (key : string) (fName oName : value) :
  converts fName = true -> converts oName = true ->
  ((if strict_equals fName oName then ret tt
    else lift (interpolate fName) ;;; lift (interpolate oName) ;;;
         warn (Mismatch key fName oName)) ;;;
   ret (strict_equals fName oName))
  = if strict_equals fName oName then ret true
    else ([Mismatch key fName oName], Ok false).
Proof.
  intros Hf Ho. unfold interpolate. rewrite Hf, Ho.
  destruct (strict_equals fName oName); reflexivity.
Qed.

(** C5: for a field wrapped in [Optional(T)]: when the target lacks the
    key, the field passes without a warning, so the whole verification
    returns true provided every other field passes; when the target has the
    key, its value is verified against the unwrapped specifier [T]: an
    object or array is verified recursively against an object-typed [T],
    any other value passes exactly when its name is the name of [T], a
    value of another name is rejected with the warning that names both, and
    a rejected value makes the whole verification return false. *)
Theorem Optional_field (this : descriptor)
  (object useFormat allowDuckTyping T fName : value) (key : string) :
  get (format_of this useFormat) key = Ok (Optional T) ->
  get T "name" = Ok fName ->
  (Reflect_has object key = Ok false ->
     field (fun o f => verify this o f allowDuckTyping) object
           (format_of this useFormat) key = ret true
     /\ forall keys,
          Object_keys (format_of this useFormat) = Ok keys ->
          (forall k, In k keys -> k <> key ->
             returned (field (fun o f => verify this o f allowDuckTyping)
                             object (format_of this useFormat) k) = Ok true) ->
          returned (verify this object useFormat allowDuckTyping) = Ok true)
  /\ (Reflect_has object key = Ok true ->
      forall v oName,
        get object key = Ok v ->
        returned (Type_from v) = Ok oName ->
        (((strict_equals oName (VString "Object")
           || strict_equals oName (VString "Array"))
          && (typeof T =? "object")) = true ->
         field (fun o f => verify this o f allowDuckTyping) object
               (format_of this useFormat) key
         = verify this v T allowDuckTyping)
        /\ (((strict_equals oName (VString "Object")
              || strict_equals oName (VString "Array"))
             && (typeof T =? "object")) = false ->
            (strict_equals fName oName = true ->
             field (fun o f => verify this o f allowDuckTyping) object
                   (format_of this useFormat) key = ret true)
            /\ (strict_equals fName oName = false ->
                converts fName = true ->
                field (fun o f => verify this o f allowDuckTyping) object
                      (format_of this useFormat) key
                = ([Mismatch key fName oName], Ok false)))
        /\ (forall before after w,
              Object_keys (format_of this useFormat)
              = Ok (before ++ key :: after) ->
              (forall k, In k before ->
                 returned (field (fun o f => verify this o f allowDuckTyping)
                                 object (format_of this useFormat) k)
                 = Ok true) ->
              field (fun o f => verify this o f allowDuckTyping) object
                    (format_of this useFormat) key = (w, Ok false) ->
              exists w0,
                verify this object useFormat allowDuckTyping
                = (w0 ++ w, Ok false))).
Proof.
  intros Hspec Hname.
  assert (Hfield : forall has, Reflect_has object key = Ok has ->
    field (fun o f => verify this o f allowDuckTyping) object
          (format_of this useFormat) key
    = if negb has then ret true
      else (v <- lift (get object key) ;;
            match_value (fun o f => verify this o f allowDuckTyping)
                        key v T fName)).
  { intros has Hhas. unfold field.
    rewrite !(bind_lift_ok _ _ _ Hspec), optType_Optional, isOpt_Optional.
    rewrite !bind_ret, (bind_lift_ok _ _ _ Hname).
    rewrite !(bind_lift_ok _ _ _ Hhas), bind_ret.
    destruct has; reflexivity. }
  split; intros Hhas.
  - pose proof (Hfield _ Hhas) as E. simpl in E. split; [exact E|].
    intros keys Hkeys Hothers. rewrite verify_unfold.
    rewrite (bind_lift_ok _ _ _ Hkeys).
    apply every_all_true. intros k Hin.
    destruct (String.eqb_spec k key) as [->|Hne].
    + rewrite E. reflexivity.
    + apply Hothers; assumption.
  - intros v oName Hv Ho.
    pose proof (Hfield _ Hhas) as E. cbn [negb] in E.
    rewrite (bind_lift_ok _ _ _ Hv) in E. unfold match_value in E.
    rewrite (Type_from_ret _ _ Ho), bind_ret in E.
    split; [|split].
    + intros Hrec. rewrite Hrec in E. exact E.
    + intros Hrec. rewrite Hrec in E. cbv zeta in E. split.
      * intros Heq. rewrite E, Heq. reflexivity.
      * intros Heq Hconv. rewrite E.
        rewrite (names_compared key fName oName Hconv
                   (Type_from_converts _ _ Ho)), Heq.
        reflexivity.
    + intros before after w Hkeys Hbefore Hfalse.
      rewrite verify_unfold, (bind_lift_ok _ _ _ Hkeys).
      apply every_first_false; assumption.
Qed.

Lemma Optional_field_witness :
  (field (fun o f => verify PersonType o f (VBoolean true))
         (object_literal [("name", VString "Ann")]) profile_format "nick"
   = ret true
   /\ returned (verify PersonType (object_literal [("name", VString "Ann")])
                       profile_format (VBoolean true)) = Ok true)
  /\ (field (fun o f => verify PersonType o f (VBoolean true))
            (object_literal [("name", VString "Ann"); ("nick", VNumber 5)])
            profile_format "nick"
      = ([Mismatch "nick" (VString "String") (VString "Number")], Ok false)
      /\ exists w0,
           verify PersonType
                  (object_literal [("name", VString "Ann"); ("nick", VNumber 5)])
                  profile_format (VBoolean true)
           = (w0 ++ [Mismatch "nick" (VString "String") (VString "Number")],
              Ok false)).
Proof.
  split.
  - destruct (Optional_field PersonType
                (object_literal [("name", VString "Ann")]) profile_format
                (VBoolean true) String_ (VString "String") "nick"
                eq_refl eq_refl) as [Habsent _].
    destruct (Habsent eq_refl) as [Hfield Hall].
    split; [exact Hfield|].
    apply (Hall ["name"; "nick"] eq_refl).
    intros k [<-|[<-|[]]] Hne; [reflexivity|contradiction].
  - destruct (Optional_field PersonType
                (object_literal [("name", VString "Ann"); ("nick", VNumber 5)])
                profile_format (VBoolean true) String_ (VString "String")
                "nick" eq_refl eq_refl) as [_ Hpresent].
    destruct (Hpresent eq_refl (VNumber 5) (VString "Number") eq_refl eq_refl)
      as [_ [Hnames Hverify]].
    destruct (Hnames eq_refl) as [_ Hreject].
    pose proof (Hreject eq_refl eq_refl) as Hfield.
    split; [exact Hfield|].
    apply (Hverify ["name"] [] _ eq_refl); [|exact Hfield].
    intros k [<-|[]]. reflexivity.
Defined.

(** ** Required fields *)



(** A required field the target lacks, whose specifier names a type, fails
    with the warning of line 187. *)
Lemma field_missing (recurse : value -> value -> outcome bool)
  (object format spec : value) (key : string) :
  get format key = Ok spec ->
  is_Optional spec = false -> names_a_type spec = true ->
  Reflect_has object key = Ok false ->
  field recurse object format key = ([MissingRequired key], Ok false).
Proof.
  intros Hget Hopt Hnames Hhas.
  unfold is_Optional in Hopt. unfold names_a_type in Hnames.
  pose proof (Type_from_silent spec) as Hsilent.
  assert (HisOpt : isOpt spec = ret false).
  { unfold isOpt in *.
    destruct (Type_from spec) as [w [n|e]]; simpl in *; [|discriminate].
    subst w. destruct (strict_equals n (VString "Optional")); [discriminate|].
    reflexivity. }
  destruct (get spec "name") as [fName|e] eqn:Hname;
    [|destruct (returned (Type_from spec)); discriminate].
  unfold field.
  rewrite !(bind_lift_ok _ _ _ Hget). unfold optType.
  rewrite HisOpt, !bind_ret, (bind_lift_ok _ _ _ Hname), !bind_ret.
  rewrite (bind_lift_ok _ _ _ Hhas). reflexivity.
Qed.




(** ** The synthesized constructor *)

Lemma lookup_set_prop_eq (key : string) (v : value)
  (props : list (string * value)) :
  lookup key (set_prop key v props) = Some v.
Proof.
  induction props as [|[k x] props IH]; simpl.
  - rewrite String.eqb_refl. reflexivity.
  - destruct (k =? key) eqn:E; simpl; rewrite E; [reflexivity|exact IH].
Qed.

Lemma lookup_set_prop_ne (key key' : string) (v : value)
  (props : list (string * value)) :
  key' <> key -> lookup key (set_prop key' v props) = lookup key props.
Proof.
  intros Hne. induction props as [|[k x] props IH]; simpl.
  - destruct (String.eqb_spec key' key); [contradiction|reflexivity].
  - destruct (String.eqb_spec k key') as [->|Hk]; simpl.
    + destruct (String.eqb_spec key' key); [contradiction|reflexivity].
    + rewrite IH. reflexivity.
Qed.

(** An object never throws when one of its properties is read. *)
Lemma get_object (tag : string) (props : list (string * value)) (key : string) :
  exists v, get (VObject tag props) key = Ok v.
Proof.
  unfold get. destruct (lookup key _); [eauto|].
  destruct (hidden_own _ key); [eauto|].
  unfold inherited.
  destruct (mem key (prototype_names (VObject tag props))) eqn:Hm; [|eauto].
  destruct (key =? "constructor"); [eauto|].
  destruct (key =? "__proto__"); [eauto|].
  destruct (mem key ["arguments"; "caller"]) eqn:Ha; [|eauto].
  exfalso. simpl in Ha, Hm.
  destruct (String.eqb_spec key "arguments") as [->|_]; [discriminate|].
  destruct (String.eqb_spec key "caller") as [->|_]; discriminate.
Qed.

(** After [keys.reduce], every key of the format other than [__proto__]
    holds what the argument object answers for it. *)
Lemma assign_lookup (values : value) (keys : list string)
  (this this' : string * list (string * value)) :
  assign values keys this = Ok this' ->
  forall key v, key <> "__proto__" -> get values key = Ok v ->
    In key keys \/ lookup key (snd this) = Some v ->
    lookup key (snd this') = Some v.
Proof.
  revert this. induction keys as [|k keys IH]; cbn [assign];
    intros this H key v Hp Hv Hin.
  - injection H as <-. destruct Hin as [[]|Hin]. exact Hin.
  - destruct (get values k) as [x|e] eqn:Hx; cbn [rbind] in H; [|discriminate].
    apply (IH _ H key v Hp Hv). unfold assign_property.
    destruct (String.eqb_spec k key) as [->|Hne].
    + right. rewrite Hv in Hx. injection Hx as <-.
      destruct (String.eqb_spec key "__proto__"); [contradiction|].
      apply lookup_set_prop_eq.
    + destruct Hin as [[Hk|Hin]|Hin]; [contradiction|left; exact Hin|].
      right. destruct (k =? "__proto__").
      * destruct x; exact Hin.
      * cbn [snd]. rewrite lookup_set_prop_ne; assumption.
Qed.

Lemma assign_object (tag : string) (props : list (string * value))
  (keys : list string) (this : string * list (string * value)) :
  exists this', assign (VObject tag props) keys this = Ok this'.
Proof.
  revert this. induction keys as [|k keys IH]; cbn [assign]; intros this;
    [eauto|].
  destruct (get_object tag props k) as [v ->]. cbn [rbind]. apply IH.
Qed.

(** C4, as the code has it: for a format [F] without a key [__proto__], a
    descriptor [new Type(name, F)] and an object [o], no array and no
    function, that has every key of [F] (its own or inherited) and that
    [verify] accepts, the synthesized constructor called with [o] returns an
    instance, and [verify] accepts that instance with the same outcome.  A
    key [o] lacks is assigned [undefined] by the constructor, so the
    instance has it; the key [__proto__] is assigned through the prototype
    setter and becomes no property of the instance. *)
Theorem construct_then_verify (name tag : string) (F allowDuckTyping : value)
  (props : list (string * value)) (this : descriptor) (w : list diagnostic) :
  new_Type name F = Ok this ->
  (forall keys, Object_keys F = Ok keys -> ~ In "__proto__" keys) ->
  (forall keys key, Object_keys F = Ok keys -> In key keys ->
                    Reflect_has (VObject tag props) key = Ok true) ->
  verify this (VObject tag props) F allowDuckTyping = (w, Ok true) ->
  exists instance,
    construct (type this) [VObject tag props] = Ok instance
    /\ verify this instance F allowDuckTyping = (w, Ok true).
Proof.
  intros Hnew Hproto Hhas Hverify.
  unfold new_Type, classFromFormat in Hnew.
  destruct (Object_keys F) as [keys|e] eqn:Hkeys; simpl in Hnew; [|discriminate].
  injection Hnew as <-.
  assert (HF : format_of
                 {| typeName := name; format := F;
                    type := {| class_name := name; class_format := F;
                               class_PARAMS := keys;
                               class_FORMAT := spread F |} |} F = F).
  { unfold format_of. destruct (truthy F); reflexivity. }
  destruct (assign_object tag props keys (name, [])) as [this' Hassign].
  exists (VObject (fst this') (snd this')). split.
  - unfold construct. simpl. rewrite Hkeys. simpl. rewrite Hassign. reflexivity.
  - rewrite <- Hverify. apply verify_agree. rewrite HF. intros key Hin.
    assert (Hk : In key keys).
    { rewrite (Object_keys_own F keys []); [exact Hin|].
      unfold lift. rewrite Hkeys. reflexivity. }
    assert (Hp : key <> "__proto__").
    { intros ->. exact (Hproto keys eq_refl Hk). }
    destruct (get_object tag props key) as [v Hv].
    pose proof (assign_lookup _ _ _ _ Hassign key v Hp Hv (or_introl Hk)) as Hl.
    split.
    + rewrite (Hhas keys key eq_refl Hk). simpl. rewrite Hl. reflexivity.
    + rewrite Hv. simpl. rewrite Hl. reflexivity.
Qed.

Lemma construct_then_verify_witness :
  exists instance,
    construct (type PersonType) [john] = Ok instance
    /\ verify PersonType instance (format PersonType) (VBoolean true)
       = ([], Ok true).
Proof.
  apply (construct_then_verify "Person" "Object" (format PersonType)
           (VBoolean true) [("name", VString "John"); ("age", VNumber 30)]
           PersonType []).
  - reflexivity.
  - intros keys [= <-] [H|[H|[]]]; discriminate.
  - intros keys key [= <-] [<-|[<-|[]]]; reflexivity.
  - reflexivity.
Defined.

(** C4 as stated fails: the empty object literal conforms to a format whose
    only field is Optional, but the instance constructed from it holds
    [nick: undefined] and is rejected. *)
Lemma round_trip_fails_on_omitted_Optional :
  new_Type "Profile" nick_format = Ok ProfileType
  /\ verify ProfileType (object_literal []) nick_format (VBoolean true)
     = ([], Ok true)
  /\ construct (type ProfileType) [object_literal []]
     = Ok (VObject "Profile" [("nick", VUndefined)])
  /\ verify ProfileType (VObject "Profile" [("nick", VUndefined)])
            nick_format (VBoolean true)
     = ([Mismatch "nick" (VString "String") (VString "Undefined")], Ok false).
Proof. repeat split; reflexivity. Qed.

(** ** Index keys *)

Lemma append_String (a : ascii) (s t : string) :
  (String a s ++ t)%string = String a (s ++ t)%string.
Proof. reflexivity. Qed.

Lemma append_middle (p : string) (c : ascii) (acc : string) :
  (p ++ String c acc)%string = ((p ++ String c "") ++ acc)%string.
Proof.
  induction p as [|a p IH]; [reflexivity|].
  rewrite !append_String, IH. reflexivity.
Qed.

Lemma digits_suffix (fuel n : nat) (acc : string) :
  exists prefix, digits fuel n acc = (prefix ++ acc)%string.
Proof.
  revert n acc. induction fuel as [|fuel IH]; intros n acc; cbn [digits].
  - exists "". reflexivity.
  - destruct (n <? 10)%nat.
    + exists (String (digit (n mod 10)) ""). reflexivity.
    + destruct (IH (n / 10) (String (digit (n mod 10)) acc)) as [p ->].
      exists (p ++ String (digit (n mod 10)) "")%string.
      apply append_middle.
Qed.

(** An index key ends with a decimal digit. *)
Lemma index_key_last (n : nat) :
  exists prefix d, d < 10 /\ index_key n = (prefix ++ String (digit d) "")%string.
Proof.
  unfold index_key. cbn [digits].
  assert (Hd : n mod 10 < 10) by (apply Nat.mod_upper_bound; lia).
  destruct (n <? 10)%nat.
  - exists "", (n mod 10). split; [exact Hd|reflexivity].
  - destruct (digits_suffix n (n / 10) (String (digit (n mod 10)) ""))
      as [p ->].
    exists p, (n mod 10). split; [exact Hd|reflexivity].
Qed.

Lemma last_char_append (p : string) (c : ascii) :
  last_char (p ++ String c "")%string = Some c.
Proof.
  induction p as [|a p IH]; [reflexivity|].
  rewrite append_String. cbn [last_char].
  destruct (p ++ String c "")%string eqn:E; [|exact IH].
  destruct p; discriminate.
Qed.

Lemma index_key_not_type (n : nat) : (index_key n =? "type") = false.
Proof.
  apply String.eqb_neq. intros H.
  destruct (index_key_last n) as [p [d [Hd E]]].
  rewrite E in H. apply (f_equal last_char) in H.
  rewrite last_char_append in H. simpl in H.
  do 10 (destruct d as [|d]; [discriminate|]). lia.
Qed.

Lemma lookup_index_keys_type (elems : list value) (i : nat) :
  lookup "type" (combine (map index_key (seq i (List.length elems))) elems)
  = None.
Proof.
  revert i. induction elems as [|x elems IH]; intros i; simpl; [reflexivity|].
  rewrite index_key_not_type. apply IH.
Qed.

(** No array has a property named [type]. *)
Lemma Reflect_has_array_type (elems : list value) :
  Reflect_has (VArray elems) "type" = Ok false.
Proof.
  unfold Reflect_has, own_props, index_keys.
  rewrite lookup_index_keys_type. reflexivity.
Qed.

Lemma field_names_ArrayOf (recurse : value -> value -> outcome bool)
  (elems : list value) (inner : value) :
  field recurse (object_literal [("names", VArray elems)])
        (object_literal [("names", VObject "ArrayOf" [("type", inner)])])
        "names"
  = recurse (VArray elems) (VObject "ArrayOf" [("type", inner)]).
Proof.
  vm_compute. destruct (recurse _ _) as [w r]. reflexivity.
Qed.

(** ** Where the code departs from its tests and documentation *)

(** C1: the test [should handle ArrayOf type for arrays of any length]
    expects true.  The code takes the [ArrayOf] instance for a nested format
    with the one key [type] and asks the array for that key: every array,
    the empty one included, is rejected with the warning for [type]. *)
Theorem ArrayOf_rejects_every_array (elems : list value) :
  new_ArrayOf String_ = Ok (VObject "ArrayOf" [("type", String_)])
  /\ verify PersonType (object_literal [("names", VArray elems)])
            (object_literal [("names", VObject "ArrayOf" [("type", String_)])])
            (VBoolean true)
     = ([MissingRequired "type"], Ok false).
Proof.
  split; [reflexivity|].
  rewrite verify_unfold.
  change (format_of PersonType _)
    with (object_literal [("names", VObject "ArrayOf" [("type", String_)])]).
  rewrite (bind_lift_ok _ ["names"]) by reflexivity.
  cbn [every]. rewrite field_names_ArrayOf.
  rewrite verify_unfold.
  change (format_of PersonType _) with (VObject "ArrayOf" [("type", String_)]).
  rewrite (bind_lift_ok _ ["type"]) by reflexivity.
  cbn [every].
  rewrite (field_missing _ _ _ String_ "type");
    try reflexivity; apply Reflect_has_array_type.
Qed.

(** C2: the test [should handle fixed-width arrays] expects false for
    [{names: ['Alice', 'Bob']}] against [{names: [String]}].  The code
    checks the keys of the specifier only and never compares the lengths:
    an array of any length that starts with a string is accepted. *)
Theorem fixed_array_accepts_longer_array (first : string)
  (rest : list value) :
  verify PersonType
         (object_literal [("names", VArray (VString first :: rest))])
         (object_literal [("names", VArray [String_])]) (VBoolean true)
  = ([], Ok true).
Proof. reflexivity. Qed.

(** C3: [verify] documents a boolean result, false when the object does not
    match.  On [null] (or any primitive) and a format with a key,
    [Reflect.has] throws a [TypeError] and no warning is printed.  On the
    format of the test [should handle ArrayOf type for arrays of objects],
    whose [ArrayOf] instance holds [type: undefined], reading
    [fType.name] throws a [TypeError] as well. *)
Theorem verify_null_throws :
  verify_default PersonType VNull = ([], Throw TypeError)
  /\ verify_default PersonType (VNumber 5) = ([], Throw TypeError)
  /\ new_ArrayOf (format PersonType)
     = Ok (VObject "ArrayOf" [("type", VUndefined)])
  /\ verify PersonType (object_literal [("people", VArray [john])])
            (object_literal
               [("people", VObject "ArrayOf" [("type", VUndefined)])])
            (VBoolean true)
     = ([], Throw TypeError).
Proof. repeat split; reflexivity. Qed.

(** C7: [typeof null] is ['object'], so a first argument [null] is taken
    for the object of values and reading its first key throws. *)
Theorem construct_null_throws :
  construct (type PersonType) [VNull] = Throw TypeError
  /\ construct (type PersonType) [VNull; VNumber 30] = Throw TypeError.
Proof. split; reflexivity. Qed.

(** ** The descriptor and the caller's format object *)

Module StoreFacts.
Import stdpp.gmap.
Import Store StoreExample.

Lemma alloc_fresh (h : heap) (l : loc) : is_Some (h !! l) -> alloc h <> l.
Proof.
  intros Hl <-. apply elem_of_dom in Hl.
  exact (is_fresh (dom h) Hl).
Qed.

Lemma new_Type_live (name : string) (f : loc) (h : heap)
  (props : list (string * value)) :
  h !! f = Some props ->
  new_Type name f h
  = Ok ({| typeName := name; format := f;
           type := {| class_name := name; class_format := f;
                      class_PARAMS := List.map fst props;
                      class_FORMAT := alloc h |} |},
        <[alloc h := props]> h).
Proof.
  intros Hf. unfold new_Type, classFromFormat, deref. rewrite Hf.
  reflexivity.
Qed.

(** Whatever the caller does to its format object is what the descriptor
    shows, and the copy on the prototype keeps the original. *)
Lemma mutation_observed (name : string) (f : loc) (h h' : heap)
  (props : list (string * value)) (d : descriptor_ref)
  (mutate : list (string * value) -> list (string * value)) :
  h !! f = Some props ->
  new_Type name f h = Ok (d, h') ->
  observed_format d (alter mutate f h') = VObject "Object" (mutate props)
  /\ observed_FORMAT d (alter mutate f h') = VObject "Object" props.
Proof.
  intros Hf Hnew. rewrite (new_Type_live _ _ _ _ Hf) in Hnew.
  injection Hnew as <- <-.
  assert (Hne : alloc h <> f) by (apply alloc_fresh; eauto).
  unfold observed_format, observed_FORMAT, deref. simpl. split.
  - rewrite lookup_alter_eq, lookup_insert_ne, Hf by congruence. reflexivity.
  - rewrite lookup_alter_ne, lookup_insert_eq by congruence. reflexivity.
Qed.

(** C8, as the code has it: [new Type(typeName, format)] stores the
    caller's format object itself, so a key the caller later adds, retypes
    or deletes is added, retyped or deleted in the format observed on the
    descriptor.  The shallow copy made at construction is the [FORMAT]
    member of the synthesized class's prototype, and it keeps the
    original keys. *)
Theorem descriptor_shares_format (name : string) (f : loc) (h h' : heap)
  (props : list (string * value)) (d : descriptor_ref) :
  h !! f = Some props ->
  new_Type name f h = Ok (d, h') ->
  format d = f
  /\ observed_format d h' = VObject "Object" props
  /\ observed_FORMAT d h' = VObject "Object" props
  /\ (forall key v,
        observed_format d (assign_key f key v h')
        = VObject "Object" (set_prop key v props)
        /\ observed_FORMAT d (assign_key f key v h')
           = VObject "Object" props)
  /\ (forall key,
        observed_format d (delete_key f key h')
        = VObject "Object"
            (List.filter (fun p => negb (String.eqb (fst p) key)) props)
        /\ observed_FORMAT d (delete_key f key h')
           = VObject "Object" props).
Proof.
  intros Hf Hnew.
  pose proof (mutation_observed name f h h' props d) as Hm.
  assert (Hne : alloc h <> f) by (apply alloc_fresh; eauto).
  pose proof Hnew as Hlive. rewrite (new_Type_live _ _ _ _ Hf) in Hlive.
  injection Hlive as Hd Hh'.
  split; [|split; [|split; [|split]]].
  - rewrite <- Hd. reflexivity.
  - rewrite <- Hd, <- Hh'. unfold observed_format, deref. simpl.
    rewrite lookup_insert_ne, Hf by congruence. reflexivity.
  - rewrite <- Hd, <- Hh'. unfold observed_FORMAT, deref. simpl.
    rewrite lookup_insert_eq. reflexivity.
  - intros key v. exact (Hm (set_prop key v) Hf Hnew).
  - intros key. exact (Hm _ Hf Hnew).
Qed.

Lemma descriptor_shares_format_witness :
  observed_format
    {| typeName := "Person"; format := 0;
       type := {| class_name := "Person"; class_format := 0;
                  class_PARAMS := ["name"]; class_FORMAT := 1 |} |}
    (assign_key 0 "age" Number_
       (<[1 := [("name", String_)]]> caller_heap))
  = VObject "Object" [("name", String_); ("age", Number_)].
Proof.
  refine (proj1 (proj1 (proj2 (proj2 (proj2 (
    descriptor_shares_format "Person" 0 caller_heap _ [("name", String_)]
      _ _ _)))) "age" Number_)).
  - reflexivity.
  - reflexivity.
Defined.

(** C8 as stated fails: the caller adds the key [age] to its format
    object after the descriptor is built, and the format observed on the
    descriptor has the key; an object the descriptor accepted before is
    rejected after. *)
Lemma descriptor_format_follows_caller :
  new_Type "Person" 0 caller_heap = Ok (Person_ref, Person_heap)
  /\ observed_format Person_ref Person_heap
     = VObject "Object" [("name", String_)]
  /\ observed_format Person_ref (assign_key 0 "age" Number_ Person_heap)
     = VObject "Object" [("name", String_); ("age", Number_)]
  /\ verify Person_ref Person_heap
            (object_literal [("name", VString "John")]) = ([], Ok true)
  /\ verify Person_ref (assign_key 0 "age" Number_ Person_heap)
            (object_literal [("name", VString "John")])
     = ([MissingRequired "age"], Ok false).
Proof. repeat split; reflexivity. Qed.

End StoreFacts.

(** * Further properties of the code *)

(** ** What [Type.from] names *)

Lemma word_run_tag (tag rest : string) :
  all_chars is_word tag = true ->
  word_run (tag ++ String "]" rest)%string = (tag, String "]" rest).
Proof.
  induction tag as [|c tag IH]; intros H; [reflexivity|].
  cbn [all_chars] in H. apply andb_true_iff in H. destruct H as [Hc Ht].
  rewrite append_String. cbn [word_run]. rewrite Hc, (IH Ht). reflexivity.
Qed.

Lemma regex_exec_tag (tag : string) :
  tag <> "" -> all_chars is_word tag = true ->
  regex_exec ("[object " ++ tag ++ "]")%string = Some tag.
Proof.
  intros Hne Hw.
  change ("[object " ++ tag ++ "]")%string
    with (String "[" (String "o" (String "b" (String "j" (String "e"
           (String "c" (String "t" (String " " (tag ++ "]")%string)))))))).
  do 6 (cbn [regex_exec]; cbv [match_here]; cbv beta iota).
  cbn [regex_exec]. cbv [match_here]. cbv beta iota.
  rewrite (word_run_tag tag "" Hw).
  destruct tag; [contradiction|reflexivity].
Qed.

(** X1: [Type.from] names an object by the tag its [toString] reports: the
    expression [/t (\w+)]/] recovers the whole tag whenever the tag is a
    word (letters, digits and underscores) that reads as an identifier. *)
Theorem Type_from_tagged_object (tag : string) (props : list (string * value)) :
  tag <> "" -> all_chars is_word tag = true -> tag <> "Function" ->
  eval_parses (VString tag) = true ->
  Type_from (VObject tag props) = ret (VString tag).
Proof.
  intros Hne Hw Hf He. unfold Type_from, Object_prototype_toString.
  cbn [class_tag]. rewrite (regex_exec_tag tag Hne Hw).
  destruct (String.eqb_spec tag "Function") as [->|_]; [contradiction|].
  cbv iota. unfold bind, ret. rewrite He. reflexivity.
Qed.

Lemma Type_from_tagged_object_witness :
  Type_from (VObject "Person" [("name", VString "Ann")]) = ret (VString "Person").
Proof.
  apply Type_from_tagged_object;
    [discriminate | reflexivity | discriminate | reflexivity].
Defined.

(** A function is named by its [name], when [eval] accepts it. *)
Lemma Type_from_function (name : string) :
  Type_from (VFunction name)
  = if eval_parses (VString name) then ret (VString name)
    else raise SyntaxError.
Proof.
  unfold Type_from.
  change (regex_exec (Object_prototype_toString (VFunction name)))
    with (Some "Function").
  cbv iota. rewrite String.eqb_refl.
  change (get (VFunction name) "name") with (Ok (VString name)).
  unfold lift, bind, ret, raise.
  destruct (eval_parses (VString name)); reflexivity.
Qed.

(** Values that are no function and no object are named by their kind. *)
Lemma Type_from_plain (v : value) :
  plain v = true ->
  Type_from v = ret (VString (class_tag v)).
Proof.
  destruct v; try discriminate; try reflexivity.
  simpl. intros H. apply String.eqb_eq in H. subst. reflexivity.
Qed.

(** ** Warnings *)

Lemma silent_lift {A} (r : result A) : silent (lift r).
Proof. reflexivity. Qed.

Lemma silent_bind {A B} (m : outcome A) (k : A -> outcome B) :
  silent m -> (forall a, silent (k a)) -> silent (bind m k).
Proof.
  unfold silent. destruct m as [w [a|e]]; simpl; intros -> Hk; [|reflexivity].
  specialize (Hk a). destruct (k a) as [w' r]. exact Hk.
Qed.

Lemma warns_once_bind {A} (m : outcome A) (k : A -> outcome bool) :
  silent m -> (forall a, warns_once_on_false (k a)) ->
  warns_once_on_false (bind m k).
Proof.
  unfold silent. destruct m as [w [a|e]]; simpl; intros -> Hk; [|reflexivity].
  specialize (Hk a). destruct (k a) as [w' r]. exact Hk.
Qed.

Lemma isOpt_silent (spec : value) : silent (isOpt spec).
Proof.
  unfold isOpt. apply silent_bind; [apply Type_from_silent|reflexivity].
Qed.

Lemma optType_silent (spec : value) : silent (optType spec).
Proof.
  unfold optType. apply silent_bind; [apply isOpt_silent|].
  intros [|]; reflexivity.
Qed.

Lemma every_warns_once (c : string -> outcome bool) (keys : list string) :
  (forall key, warns_once_on_false (c key)) ->
  warns_once_on_false (every c keys).
Proof.
  intros H. induction keys as [|key rest IH]; [reflexivity|].
  cbn [every]. specialize (H key).
  destruct (c key) as [w [[|]|e]]; simpl in H.
  - subst w. simpl. destruct (every c rest) as [w' r]. exact IH.
  - destruct H as [d ->]. simpl. eauto.
  - subst w. reflexivity.
Qed.

Lemma field_warns_once (recurse : value -> value -> outcome bool)
  (object format : value) (key : string) :
  (forall v f, warns_once_on_false (recurse v f)) ->
  warns_once_on_false (field recurse object format key).
Proof.
  intros H. unfold field.
  apply warns_once_bind.
  { apply silent_bind; [apply silent_lift|]. intros spec. apply optType_silent. }
  intros fType. apply warns_once_bind; [apply silent_lift|]. intros fName.
  apply warns_once_bind.
  { apply silent_bind; [apply silent_lift|]. intros spec.
    apply silent_bind; [apply isOpt_silent|]. intros [|]; [|reflexivity].
    apply silent_bind; [apply silent_lift|]. reflexivity. }
  intros [|]; [reflexivity|].
  apply warns_once_bind; [apply silent_lift|]. intros [|]; cbn [negb].
  - apply warns_once_bind; [apply silent_lift|]. intros v.
    unfold match_value.
    apply warns_once_bind; [apply Type_from_silent|]. intros oName.
    destruct (_ && _); [apply H|].
    destruct (strict_equals fName oName); [reflexivity|].
    unfold interpolate.
    destruct (converts fName); [|reflexivity].
    destruct (converts oName); [|reflexivity].
    simpl. eauto.
  - simpl. eauto.
Qed.

Lemma verify_fuel_warns_once (n : nat) (this : descriptor)
  (object useFormat allowDuckTyping : value) :
  warns_once_on_false (verify_fuel n this object useFormat allowDuckTyping).
Proof.
  revert object useFormat. induction n as [|n IH]; intros object useFormat;
    [reflexivity|].
  cbn [verify_fuel]. apply warns_once_bind; [apply silent_lift|].
  intros keys. apply every_warns_once. intros key.
  apply field_warns_once. intros v f. apply IH.
Qed.

(** X2: [verify] prints exactly one warning when it returns false, and
    none when it returns true or throws. *)
Theorem verify_warns_once_on_false (this : descriptor)
  (object useFormat allowDuckTyping : value) :
  (returned (verify this object useFormat allowDuckTyping) = Ok false ->
   exists d, warnings (verify this object useFormat allowDuckTyping) = [d])
  /\ (returned (verify this object useFormat allowDuckTyping) <> Ok false ->
      warnings (verify this object useFormat allowDuckTyping) = []).
Proof.
  pose proof (verify_fuel_warns_once
                (S (depth (format_of this useFormat))) this object useFormat
                allowDuckTyping) as H.
  fold (verify this object useFormat allowDuckTyping) in H.
  destruct (verify this object useFormat allowDuckTyping) as [w [[|]|e]];
    simpl in *; split; intros Hr; try discriminate; try congruence; auto.
Qed.

(** ** The synthesized constructor, case by case *)

Lemma set_prop_fresh (key : string) (v : value) (props : list (string * value)) :
  ~ In key (map fst props) -> set_prop key v props = props ++ [(key, v)].
Proof.
  induction props as [|[k x] props IH]; simpl; intros H; [reflexivity|].
  destruct (String.eqb_spec k key) as [->|_]; [exfalso; auto|].
  rewrite IH; [reflexivity|]. intros Hin. apply H. right. exact Hin.
Qed.

Lemma fromEntries_NoDup (entries acc : list (string * value)) :
  NoDup (map fst (acc ++ entries)) ->
  fold_left (fun props e => set_prop (fst e) (snd e) props) entries acc
  = acc ++ entries.
Proof.
  revert acc. induction entries as [|[k v] entries IH]; intros acc H; simpl.
  - rewrite app_nil_r. reflexivity.
  - rewrite set_prop_fresh.
    + rewrite IH; rewrite <- app_assoc; [reflexivity|exact H].
    + rewrite map_app in H. simpl in H.
      apply NoDup_remove_2 in H. intros Hin. apply H.
      apply in_or_app. left. exact Hin.
Qed.

Lemma positional_keys (i : nat) (keys : list string) (elems : list value) :
  map fst (positional i keys elems) = keys.
Proof.
  revert i. induction keys as [|k keys IH]; intros i; simpl;
    [|rewrite IH]; reflexivity.
Qed.


Lemma lookup_app_fresh {A} (key : string) (l1 l2 : list (string * A)) :
  ~ In key (map fst l1) -> lookup key (l1 ++ l2) = lookup key l2.
Proof.
  induction l1 as [|[k v] l1 IH]; simpl; intros H; [reflexivity|].
  destruct (String.eqb_spec k key) as [->|_]; [exfalso; auto|].
  apply IH. intros Hin. apply H. right. exact Hin.
Qed.

(** Without the key [__proto__] the instance keeps its tag. *)
Lemma assign_tag (values : value) (keys : list string)
  (this this' : string * list (string * value)) :
  ~ In "__proto__" keys ->
  assign values keys this = Ok this' -> fst this' = fst this.
Proof.
  revert this. induction keys as [|k keys IH]; cbn [assign]; intros this Hp H.
  - injection H as <-. reflexivity.
  - destruct (get values k) as [x|e]; cbn [rbind] in H; [|discriminate].
    rewrite (IH _ (fun Hin => Hp (or_intror Hin)) H). unfold assign_property.
    destruct (String.eqb_spec k "__proto__") as [->|_]; [|reflexivity].
    exfalso. apply Hp. left. reflexivity.
Qed.

(** Reading, key by key, an object that answers every key fills [this]
    with one property per key, in the order of the keys. *)
Lemma assign_NoDup (values : value) (g : string -> value)
  (keys : list string) (this : string * list (string * value)) :
  ~ In "__proto__" keys ->
  NoDup (map fst (snd this) ++ keys) ->
  (forall key, In key keys -> get values key = Ok (g key)) ->
  assign values keys this
  = Ok (fst this, snd this ++ map (fun key => (key, g key)) keys).
Proof.
  revert this. induction keys as [|k keys IH]; intros [tag this] Hp Hnd Hg;
    cbn [assign fst snd map] in *.
  - rewrite app_nil_r. reflexivity.
  - rewrite (Hg k (or_introl eq_refl)). cbn [rbind].
    assert (Hk : ~ In k (map fst this)).
    { apply NoDup_remove_2 in Hnd. intros Hin. apply Hnd.
      apply in_or_app. left. exact Hin. }
    unfold assign_property.
    destruct (String.eqb_spec k "__proto__") as [->|_];
      [exfalso; apply Hp; left; reflexivity|].
    cbn [fst snd]. rewrite (set_prop_fresh _ _ _ Hk), IH.
    + cbn [fst snd]. rewrite <- app_assoc. reflexivity.
    + intros Hin. apply Hp. right. exact Hin.
    + cbn [snd]. rewrite map_app, <- app_assoc. exact Hnd.
    + intros key Hin. apply Hg. right. exact Hin.
Qed.

Lemma get_own_lookup (tag : string) (props : list (string * value))
  (key : string) (v : value) :
  lookup key props = Some v -> get (VObject tag props) key = Ok v.
Proof. intros H. unfold get. simpl. rewrite H. reflexivity. Qed.

Lemma map_positional (i : nat) (keys : list string) (elems : list value)
  (before : list (string * value)) :
  NoDup (map fst before ++ keys) ->
  map (fun key => (key, match lookup key (before ++ positional i keys elems) with
                        | Some x => x
                        | None => VUndefined
                        end)) keys
  = positional i keys elems.
Proof.
  revert i before. induction keys as [|k keys IH]; intros i before Hnd;
    [reflexivity|].
  cbn [map positional].
  assert (Hk : ~ In k (map fst before)).
  { apply NoDup_remove_2 in Hnd. intros Hin. apply Hnd.
    apply in_or_app. left. exact Hin. }
  rewrite (lookup_app_fresh _ _ _ Hk). cbn [lookup].
  rewrite String.eqb_refl. f_equal.
  specialize (IH (S i) (before ++ [(k, nth i elems VUndefined)])).
  rewrite <- app_assoc in IH. apply IH.
  rewrite map_app, <- app_assoc. exact Hnd.
Qed.

Lemma construct_values (type : synthesized) (args : list value)
  (keys : list string) :
  Object_keys (class_format type) = Ok keys ->
  construct type args
  = rbind (assign (match nth 0 args VUndefined with
                   | VArray elems => Object_fromEntries (positional 0 keys elems)
                   | VNull => VNull
                   | VObject tag props => VObject tag props
                   | _ => Object_fromEntries (positional 0 keys args)
                   end) keys (class_name type, []))
          (fun this => Ok (VObject (fst this) (snd this))).
Proof.
  intros Hkeys. unfold construct. rewrite Hkeys. cbn [rbind].
  destruct (nth 0 args VUndefined); reflexivity.
Qed.

(** X13: for a format without a key [__proto__], called with positional
    arguments (or with one array of them), the synthesized constructor
    returns an instance whose own keys are the keys of the format, in
    order; the key at position [i] holds argument [i], or [undefined] when
    there are fewer arguments; further arguments are dropped. *)
Theorem construct_positional (type : synthesized) (args elems : list value)
  (keys : list string) :
  Object_keys (class_format type) = Ok keys -> NoDup keys ->
  ~ In "__proto__" keys ->
  positional_values args = Some elems ->
  construct type args
  = Ok (VObject (class_name type) (positional 0 keys elems)).
Proof.
  intros Hkeys Hnd Hp Hpos.
  assert (Hvalues :
    construct type args
    = rbind (assign (Object_fromEntries (positional 0 keys elems)) keys
                    (class_name type, []))
            (fun this => Ok (VObject (fst this) (snd this)))).
  { rewrite (construct_values _ _ _ Hkeys). unfold positional_values in Hpos.
    destruct (nth 0 args VUndefined); try discriminate;
      injection Hpos as <-; reflexivity. }
  rewrite Hvalues. unfold Object_fromEntries.
  rewrite (fromEntries_NoDup _ []) by (simpl; rewrite positional_keys; exact Hnd).
  simpl app.
  rewrite (assign_NoDup _
             (fun key => match lookup key (positional 0 keys elems) with
                         | Some x => x
                         | None => VUndefined
                         end)).
  - pose proof (map_positional 0 keys elems [] Hnd) as Hm.
    cbn [app fst snd rbind] in Hm |- *. rewrite Hm. reflexivity.
  - exact Hp.
  - exact Hnd.
  - intros key Hin.
    destruct (lookup_keys key (positional 0 keys elems)) as [x Hx].
    { rewrite positional_keys. exact Hin. }
    rewrite Hx. apply get_own_lookup. exact Hx.
Qed.

Lemma construct_positional_witness :
  construct (type PersonType) [VString "Ann"]
  = Ok (VObject "Person" [("name", VString "Ann"); ("age", VUndefined)]).
Proof.
  apply (construct_positional (type PersonType) [VString "Ann"]
           [VString "Ann"] ["name"; "age"]).
  - reflexivity.
  - repeat constructor; simpl; intuition discriminate.
  - simpl; intuition discriminate.
  - reflexivity.
Defined.

(** X14: for a format without a key [__proto__], called with an object as
    first argument, the synthesized constructor returns an instance whose
    own keys are the keys of the format, in order, each holding what the
    object answers for that key ([undefined] for a key it lacks); keys of
    the object outside the format and all further arguments are dropped. *)
Theorem construct_from_object (type : synthesized) (tag : string)
  (props : list (string * value)) (rest : list value) (keys : list string) :
  Object_keys (class_format type) = Ok keys -> NoDup keys ->
  ~ In "__proto__" keys ->
  construct type (VObject tag props :: rest)
  = Ok (VObject (class_name type)
          (map (fun key => (key, property (VObject tag props) key)) keys)).
Proof.
  intros Hkeys Hnd Hp. rewrite (construct_values _ _ _ Hkeys). cbn [nth].
  rewrite (assign_NoDup _ (property (VObject tag props))).
  - reflexivity.
  - exact Hp.
  - exact Hnd.
  - intros key _. unfold property.
    destruct (get_object tag props key) as [v ->]. reflexivity.
Qed.

Lemma construct_from_object_witness :
  construct (type PersonType) [john_with_extras]
  = Ok (VObject "Person" [("name", VString "John"); ("age", VNumber 30)]).
Proof.
  refine (construct_from_object (type PersonType) "Object"
            [("id", VNumber 7); ("name", VString "John");
             ("age", VNumber 30); ("admin", VBoolean true)]
            [] ["name"; "age"] eq_refl _ _).
  - repeat constructor; simpl; intuition discriminate.
  - simpl; intuition discriminate.
Defined.



(** ** Fields that are present *)

Lemma isOpt_not_Optional (spec : value) :
  is_Optional spec = false -> names_a_type spec = true ->
  isOpt spec = ret false.
Proof.
  unfold is_Optional, names_a_type, isOpt. intros Ho Hn.
  pose proof (Type_from_silent spec) as Hs.
  destruct (Type_from spec) as [w [n|e]]; simpl in *; [|discriminate].
  subst w. destruct (strict_equals n (VString "Optional")); [discriminate|].
  reflexivity.
Qed.

(** A present field whose specifier is no [Optional] wrapper is decided by
    lines 191 to 204 on the specifier itself. *)
Lemma field_present (recurse : value -> value -> outcome bool)
  (object format spec fName v : value) (key : string) :
  get format key = Ok spec ->
  isOpt spec = ret false ->
  get spec "name" = Ok fName ->
  Reflect_has object key = Ok true ->
  get object key = Ok v ->
  field recurse object format key = match_value recurse key v spec fName.
Proof.
  intros Hspec Hopt Hname Hhas Hv. unfold field, optType.
  rewrite !(bind_lift_ok _ _ _ Hspec), Hopt, !bind_ret.
  rewrite (bind_lift_ok _ _ _ Hname), !bind_ret.
  rewrite (bind_lift_ok _ _ _ Hhas). cbn [negb].
  rewrite (bind_lift_ok _ _ _ Hv). reflexivity.
Qed.

Lemma isOpt_function (fn : string) :
  eval_parses (VString fn) = true -> fn <> "Optional" ->
  isOpt (VFunction fn) = ret false.
Proof.
  intros He Hne. unfold isOpt. rewrite Type_from_function, He, bind_ret.
  cbn [strict_equals].
  destruct (String.eqb_spec fn "Optional"); [contradiction|reflexivity].
Qed.

(** X7: a present field declared by a function or class passes exactly
    when [Type.from] names the value like the declared type; otherwise it
    fails with the warning that names both sides. *)
Theorem field_by_name (recurse : value -> value -> outcome bool)
  (object format v oName : value) (key fn : string) :
  get format key = Ok (VFunction fn) ->
  eval_parses (VString fn) = true -> fn <> "Optional" ->
  Reflect_has object key = Ok true ->
  get object key = Ok v ->
  returned (Type_from v) = Ok oName ->
  field recurse object format key
  = if strict_equals (VString fn) oName then ret true
    else ([Mismatch key (VString fn) oName], Ok false).
Proof.
  intros Hspec He Hne Hhas Hv Ho.
  rewrite (field_present recurse object format (VFunction fn) (VString fn) v key
             Hspec (isOpt_function fn He Hne) eq_refl Hhas Hv).
  unfold match_value. rewrite (Type_from_ret _ _ Ho), bind_ret.
  change (typeof (VFunction fn) =? "object") with false.
  rewrite andb_false_r. cbv iota zeta.
  apply names_compared; [reflexivity|].
  exact (Type_from_converts _ _ Ho).
Qed.

Lemma field_by_name_witness :
  field (fun o f => verify PersonType o f (VBoolean true))
        (object_literal [("name", VString "John"); ("age", VString "30")])
        (format PersonType) "age"
  = ([Mismatch "age" (VString "Number") (VString "String")], Ok false).
Proof.
  apply (field_by_name _ _ (format PersonType) (VString "30")
           (VString "String") "age" "Number");
    solve [reflexivity | discriminate].
Defined.

Lemma class_tag_plain_not (v : value) (fn : string) :
  plain v = true ->
  ~ In fn ["Undefined"; "Null"; "Boolean"; "Number"; "String"; "Array";
           "Object"] ->
  strict_equals (VString fn) (VString (class_tag v)) = false.
Proof.
  intros Hp Hn. cbn [strict_equals]. apply String.eqb_neq. intros ->.
  apply Hn. destruct v; simpl in *; try discriminate; auto 10.
  apply String.eqb_eq in Hp. subst. auto 10.
Qed.

(** X8: a field declared [Type.Any] or [Type.None] rejects every plain
    value present under its key, with one warning: the two classes are
    compared by name like any other declared type. *)
Theorem Type_Any_accepts_no_plain_value
  (recurse : value -> value -> outcome bool)
  (object format v : value) (key : string) :
  get format key = Ok Type_Any \/ get format key = Ok Type_None ->
  Reflect_has object key = Ok true ->
  get object key = Ok v ->
  plain v = true ->
  exists d, field recurse object format key = ([d], Ok false).
Proof.
  intros Hspec Hhas Hv Hp.
  assert (Ho : returned (Type_from v) = Ok (VString (class_tag v))).
  { rewrite (Type_from_plain v Hp). reflexivity. }
  destruct Hspec as [Hspec|Hspec].
  - rewrite (field_by_name recurse object format v _ key "Any" Hspec
               eq_refl ltac:(discriminate) Hhas Hv Ho).
    rewrite (class_tag_plain_not v "Any" Hp)
      by (simpl; intuition discriminate). eauto.
  - rewrite (field_by_name recurse object format v _ key "None" Hspec
               eq_refl ltac:(discriminate) Hhas Hv Ho).
    rewrite (class_tag_plain_not v "None" Hp)
      by (simpl; intuition discriminate). eauto.
Qed.

Lemma Type_Any_accepts_no_plain_value_witness :
  exists d,
    field (fun o f => verify PersonType o f (VBoolean true))
          (object_literal [("payload", VNumber 1)])
          (object_literal [("payload", Type_Any)]) "payload"
    = ([d], Ok false).
Proof.
  apply (Type_Any_accepts_no_plain_value _ _ _ (VNumber 1));
    solve [left; reflexivity | reflexivity].
Defined.

(** X10: a present field declared by a nested format is verified
    recursively only when the value is named [Object] or [Array]; any other
    value, an instance of a class included, is decided by comparing its name
    with the [name] property of the nested format.  When the names differ
    the field fails with one warning, provided that [name] property converts
    to a string for the warning. *)
Theorem field_nested (recurse : value -> value -> outcome bool)
  (object format spec fName v oName : value) (key : string) :
  get format key = Ok spec ->
  container spec = true ->
  is_Optional spec = false -> names_a_type spec = true ->
  get spec "name" = Ok fName ->
  converts fName = true ->
  Reflect_has object key = Ok true ->
  get object key = Ok v ->
  returned (Type_from v) = Ok oName ->
  field recurse object format key
  = if strict_equals oName (VString "Object")
       || strict_equals oName (VString "Array")
    then recurse v spec
    else if strict_equals fName oName then ret true
         else ([Mismatch key fName oName], Ok false).
Proof.
  intros Hspec Hc Hopt Hnames Hname Hconv Hhas Hv Ho.
  rewrite (field_present recurse object format spec fName v key Hspec
             (isOpt_not_Optional spec Hopt Hnames) Hname Hhas Hv).
  unfold match_value. rewrite (Type_from_ret _ _ Ho), bind_ret.
  assert (Ht : (typeof spec =? "object") = true)
    by (destruct spec; try discriminate; reflexivity).
  rewrite Ht, andb_true_r.
  destruct (_ || _); [reflexivity|]. cbv zeta.
  apply names_compared; [exact Hconv|].
  exact (Type_from_converts _ _ Ho).
Qed.

Lemma field_nested_witness :
  field (fun o f => verify PersonType o f (VBoolean true))
        (object_literal [("owner", VObject "Person" [("name", VString "Ann")])])
        owner_format "owner"
  = ([Mismatch "owner" String_ (VString "Person")], Ok false).
Proof.
  apply (field_nested _ _ owner_format (object_literal [("name", String_)])
           String_ (VObject "Person" [("name", VString "Ann")])
           (VString "Person") "owner");
    reflexivity.
Defined.

(** X16: for a format without a key [__proto__], [Type.from] names every
    instance the synthesized constructor returns after the class, for a
    class name that is a word and reads as an identifier. *)
Theorem instance_named_after_class (type : synthesized) (args : list value)
  (keys : list string) (instance : value) :
  class_name type <> "" -> all_chars is_word (class_name type) = true ->
  class_name type <> "Function" ->
  eval_parses (VString (class_name type)) = true ->
  Object_keys (class_format type) = Ok keys -> ~ In "__proto__" keys ->
  construct type args = Ok instance ->
  Type_from instance = ret (VString (class_name type)).
Proof.
  intros Hne Hw Hf He Hkeys Hp Hc. unfold construct in Hc.
  rewrite Hkeys in Hc. cbn [rbind] in Hc.
  destruct (assign _ keys (class_name type, [])) as [this|e] eqn:Ha;
    [|discriminate].
  injection Hc as <-. rewrite (assign_tag _ _ _ _ Hp Ha).
  apply Type_from_tagged_object; assumption.
Qed.

Lemma instance_named_after_class_witness :
  Type_from (VObject "Person" [("name", VString "Ann"); ("age", VUndefined)])
  = ret (VString "Person").
Proof.
  apply (instance_named_after_class (type PersonType) [VString "Ann"]
           ["name"; "age"]);
    solve [discriminate | reflexivity | simpl; intuition discriminate].
Defined.

(** X17: for a format without a key [__proto__], an instance of the
    synthesized class passes a field declared by that class, whatever the
    instance holds. *)
Theorem instance_accepted_by_class_field
  (recurse : value -> value -> outcome bool) (type : synthesized)
  (args : list value) (keys : list string)
  (instance object format : value) (key : string) :
  class_name type <> "" -> all_chars is_word (class_name type) = true ->
  class_name type <> "Function" -> class_name type <> "Optional" ->
  eval_parses (VString (class_name type)) = true ->
  Object_keys (class_format type) = Ok keys -> ~ In "__proto__" keys ->
  construct type args = Ok instance ->
  get format key = Ok (VFunction (class_name type)) ->
  Reflect_has object key = Ok true ->
  get object key = Ok instance ->
  field recurse object format key = ret true.
Proof.
  intros Hne Hw Hf Ho He Hkeys Hp Hc Hspec Hhas Hv.
  rewrite (field_by_name recurse object format instance
             (VString (class_name type)) key (class_name type)
             Hspec He Ho Hhas Hv).
  - cbn [strict_equals]. rewrite String.eqb_refl. reflexivity.
  - rewrite (instance_named_after_class type args keys instance); auto.
Qed.

Lemma instance_accepted_by_class_field_witness :
  field (fun o f => verify PersonType o f (VBoolean true))
        (object_literal
           [("owner", VObject "Person" [("name", VString "Ann");
                                        ("age", VUndefined)])])
        (object_literal [("owner", VFunction "Person")]) "owner"
  = ret true.
Proof.
  apply (instance_accepted_by_class_field _ (type PersonType) [VString "Ann"]
           ["name"; "age"]
           (VObject "Person" [("name", VString "Ann"); ("age", VUndefined)]));
    solve [discriminate | reflexivity | simpl; intuition discriminate].
Defined.

(** ** Targets that are no objects *)

Lemma field_non_object (recurse : value -> value -> outcome bool)
  (object format : value) (key : string) :
  is_object object = false ->
  exists e, field recurse object format key = ([], Throw e).
Proof.
  intros Hobj.
  assert (Hhas : Reflect_has object key = Throw TypeError)
    by (destruct object; try discriminate; reflexivity).
  unfold field. rewrite Hhas.
  destruct (get format key) as [spec|e]; [|simpl; eauto].
  rewrite !bind_lift_ok with (a := spec) by reflexivity.
  pose proof (optType_silent spec) as Hs1. pose proof (isOpt_silent spec) as Hs2.
  unfold silent in *.
  destruct (optType spec) as [w1 [fType|e]]; simpl in Hs1; subst w1;
    [|simpl; eauto].
  rewrite (bind_ret fType).
  destruct (get fType "name") as [fName|e]; [|simpl; eauto].
  rewrite bind_lift_ok with (a := fName) by reflexivity.
  destruct (isOpt spec) as [w2 [[|]|e]]; simpl in Hs2; subst w2; simpl; eauto.
Qed.

(** X3: on a target that is no object, [verify] returns true when the
    format has no keys and throws otherwise; it never returns false. *)
Theorem verify_non_object (this : descriptor)
  (object useFormat allowDuckTyping : value) :
  is_object object = false ->
  (Object_keys (format_of this useFormat) = Ok [] ->
   verify this object useFormat allowDuckTyping = ret true)
  /\ (Object_keys (format_of this useFormat) <> Ok [] ->
      exists e, verify this object useFormat allowDuckTyping = ([], Throw e)).
Proof.
  intros Hobj. rewrite verify_unfold. split.
  - intros ->. reflexivity.
  - intros Hkeys.
    destruct (Object_keys (format_of this useFormat)) as [[|key keys]|e].
    + contradiction.
    + rewrite bind_lift_ok with (a := key :: keys) by reflexivity.
      cbn [every].
      destruct (field_non_object
                  (fun o f => verify this o f allowDuckTyping)
                  object (format_of this useFormat) key Hobj) as [e ->].
      simpl. eauto.
    + simpl. eauto.
Qed.

Lemma verify_non_object_witness :
  verify PersonType VNull (object_literal []) (VBoolean true) = ret true.
Proof.
  apply (proj1 (verify_non_object PersonType VNull (object_literal [])
                  (VBoolean true) eq_refl)).
  reflexivity.
Defined.

(** ** MakeDescriptor *)




(** ** The conjunction over the fields *)

(** X4: [verify] returns true exactly when the check of every key of the
    format returns true. *)
Theorem verify_true_iff_every_field (this : descriptor)
  (object useFormat allowDuckTyping : value) (keys : list string) :
  Object_keys (format_of this useFormat) = Ok keys ->
  (returned (verify this object useFormat allowDuckTyping) = Ok true
   <-> forall key, In key keys ->
         returned (field (fun o f => verify this o f allowDuckTyping) object
                         (format_of this useFormat) key) = Ok true).
Proof.
  intros Hkeys. rewrite verify_unfold, (bind_lift_ok _ _ _ Hkeys). split.
  - apply every_true_inv.
  - apply every_all_true.
Qed.

Lemma verify_true_iff_every_field_witness :
  returned (verify PersonType john VNull (VBoolean true)) = Ok true
  <-> forall key, In key ["name"; "age"] ->
        returned (field (fun o f => verify PersonType o f (VBoolean true))
                        john (format_of PersonType VNull) key) = Ok true.
Proof.
  exact (verify_true_iff_every_field PersonType john VNull (VBoolean true)
           ["name"; "age"] eq_refl).
Defined.

Lemma lookup_Permutation {A} (key : string) (l l' : list (string * A)) :
  Permutation l l' -> NoDup (map fst l) -> lookup key l = lookup key l'.
Proof.
  induction 1 as [|[k v] l l' Hp IH|[k1 v1] [k2 v2] l|l l' l'' Hp1 IH1 Hp2 IH2];
    intros Hnd.
  - reflexivity.
  - simpl. inversion Hnd; subst. rewrite IH by assumption. reflexivity.
  - simpl. inversion Hnd as [|? ? Hk _]; subst.
    destruct (String.eqb_spec k2 key) as [->|_]; [|reflexivity].
    destruct (String.eqb_spec k1 key) as [->|_]; [|reflexivity].
    exfalso. apply Hk. left. reflexivity.
  - rewrite IH1 by exact Hnd. apply IH2.
    apply (Permutation_NoDup (Permutation_map fst Hp1) Hnd).
Qed.

Lemma field_same_specifier (recurse : value -> value -> outcome bool)
  (object f1 f2 : value) (key : string) :
  get f1 key = get f2 key ->
  field recurse object f1 key = field recurse object f2 key.
Proof. intros H. unfold field. rewrite H. reflexivity. Qed.

(** X5: acceptance does not depend on the order of the keys of the format. *)
Theorem verify_true_any_key_order (this : descriptor)
  (object allowDuckTyping : value) (tag : string)
  (props props' : list (string * value)) :
  Permutation props props' -> NoDup (map fst props) ->
  (returned (verify this object (VObject tag props) allowDuckTyping) = Ok true
   <-> returned (verify this object (VObject tag props') allowDuckTyping)
       = Ok true).
Proof.
  intros Hp Hnd.
  assert (Hnd' : NoDup (map fst props'))
    by exact (Permutation_NoDup (Permutation_map fst Hp) Hnd).
  assert (Hget : forall key,
            get (VObject tag props) key = get (VObject tag props') key).
  { intros key. unfold get. cbn [own_props hidden_own inherited prototype_names
                                  class_tag prototype_of].
    rewrite (lookup_Permutation key _ _ Hp Hnd). reflexivity. }
  rewrite (verify_true_iff_every_field this object (VObject tag props)
             allowDuckTyping (map fst props) eq_refl).
  rewrite (verify_true_iff_every_field this object (VObject tag props')
             allowDuckTyping (map fst props') eq_refl).
  change (format_of this (VObject tag props)) with (VObject tag props).
  change (format_of this (VObject tag props')) with (VObject tag props').
  split; intros H key Hin.
  - rewrite <- (field_same_specifier _ object _ _ key (Hget key)).
    apply H. apply (Permutation_in key (Permutation_sym (Permutation_map fst Hp))).
    exact Hin.
  - rewrite (field_same_specifier _ object _ _ key (Hget key)).
    apply H. apply (Permutation_in key (Permutation_map fst Hp)). exact Hin.
Qed.

Lemma verify_true_any_key_order_witness :
  returned (verify PersonType john
              (object_literal [("name", String_); ("age", Number_)])
              (VBoolean true)) = Ok true
  <-> returned (verify PersonType john
                  (object_literal [("age", Number_); ("name", String_)])
                  (VBoolean true)) = Ok true.
Proof.
  apply verify_true_any_key_order.
  - apply perm_swap.
  - repeat constructor; simpl; intuition discriminate.
Defined.

(** ** Arrays longer than their specifier *)

Lemma lookup_app_found {A} (key : string) (l1 l2 : list (string * A)) :
  In key (map fst l1) -> lookup key (l1 ++ l2) = lookup key l1.
Proof.
  induction l1 as [|[k v] l1 IH]; simpl; intros H; [contradiction|].
  destruct (String.eqb_spec k key) as [->|Hne]; [reflexivity|].
  apply IH. destruct H as [H|H]; [contradiction|exact H].
Qed.

Lemma combine_app {A B} (a1 a2 : list A) (b1 b2 : list B) :
  List.length a1 = List.length b1 ->
  combine (a1 ++ a2) (b1 ++ b2) = combine a1 b1 ++ combine a2 b2.
Proof.
  revert b1. induction a1 as [|x a1 IH]; intros [|y b1] H; simpl in *;
    try discriminate; [reflexivity|].
  rewrite IH by lia. reflexivity.
Qed.

Lemma own_props_array_app (elems extra : list value) :
  own_props (VArray (elems ++ extra))
  = own_props (VArray elems)
    ++ combine (map index_key (seq (List.length elems) (List.length extra)))
               extra.
Proof.
  cbn [own_props]. unfold index_keys.
  rewrite length_app, seq_app, map_app. cbn [plus].
  apply combine_app. rewrite length_map, length_seq. reflexivity.
Qed.

Lemma keys_combine {A B} (a : list A) (b : list B) :
  List.length a = List.length b -> map fst (combine a b) = a.
Proof.
  revert b. induction a as [|x a IH]; intros [|y b] H; simpl in *;
    try discriminate; [reflexivity|].
  rewrite IH by lia. reflexivity.
Qed.

Lemma own_keys_array (elems : list value) :
  map fst (own_props (VArray elems)) = index_keys (List.length elems).
Proof.
  cbn [own_props]. apply keys_combine.
  unfold index_keys. rewrite length_map, length_seq. reflexivity.
Qed.

Lemma index_keys_prefix (n m : nat) (key : string) :
  n <= m -> In key (index_keys n) -> In key (index_keys m).
Proof.
  unfold index_keys. intros Hle Hin.
  apply in_map_iff in Hin. destruct Hin as [i [<- Hi]].
  apply in_map. apply in_seq in Hi. apply in_seq. lia.
Qed.

Lemma array_app_agree (elems extra : list value) (key : string) :
  In key (index_keys (List.length elems)) ->
  Reflect_has (VArray (elems ++ extra)) key = Reflect_has (VArray elems) key
  /\ get (VArray (elems ++ extra)) key = get (VArray elems) key.
Proof.
  intros Hin. rewrite <- own_keys_array in Hin.
  pose proof (lookup_app_found key _
                (combine (map index_key (seq (List.length elems)
                                             (List.length extra))) extra)
                Hin) as Hl.
  rewrite <- own_props_array_app in Hl.
  destruct (lookup_keys _ _ Hin) as [x Hx].
  unfold Reflect_has, get. rewrite Hl, Hx. split; reflexivity.
Qed.

(** X12: a fixed-length specifier never looks at the elements beyond its own
    length. *)
Theorem fixed_array_ignores_extra_elements (this : descriptor)
  (allowDuckTyping : value) (specs elems extra : list value) :
  List.length specs <= List.length elems ->
  verify this (VArray (elems ++ extra)) (VArray specs) allowDuckTyping
  = verify this (VArray elems) (VArray specs) allowDuckTyping.
Proof.
  intros Hle. apply verify_agree.
  change (format_of this (VArray specs)) with (VArray specs).
  rewrite own_keys_array. intros key Hin.
  apply array_app_agree. apply (index_keys_prefix _ _ key Hle Hin).
Qed.

Lemma fixed_array_ignores_extra_elements_witness :
  verify PersonType (VArray ([VString "Alice"] ++ [VString "Bob"]))
         (VArray [String_]) (VBoolean true)
  = verify PersonType (VArray [VString "Alice"]) (VArray [String_])
           (VBoolean true).
Proof.
  apply fixed_array_ignores_extra_elements. simpl. lia.
Defined.

(** ** Specifiers with the same properties *)

Lemma verify_same_own_props (this : descriptor)
  (object s1 s2 allowDuckTyping : value) :
  container s1 = true -> container s2 = true ->
  own_props s1 = own_props s2 ->
  verify this object s1 allowDuckTyping = verify this object s2 allowDuckTyping.
Proof.
  intros Hc1 Hc2 Hown. rewrite !verify_unfold.
  rewrite (container_truthy this s1 Hc1), (container_truthy this s2 Hc2).
  assert (Hk1 : Object_keys s1 = Ok (map fst (own_props s1)))
    by (destruct s1; try discriminate; reflexivity).
  assert (Hk2 : Object_keys s2 = Ok (map fst (own_props s1)))
    by (rewrite Hown; destruct s2; try discriminate; reflexivity).
  rewrite (bind_lift_ok _ _ _ Hk1), (bind_lift_ok _ _ _ Hk2).
  apply every_ext_in. intros key Hin.
  apply field_same_specifier.
  destruct (get_own s1 key Hin) as [x [Hl ->]].
  rewrite Hown in Hin, Hl.
  destruct (get_own s2 key Hin) as [y [Hl' ->]]. congruence.
Qed.

Lemma get_name_same_own_props (s1 s2 : value) :
  container s1 = true -> container s2 = true ->
  own_props s1 = own_props s2 ->
  get s1 "name" = get s2 "name".
Proof.
  intros Hc1 Hc2 Hown. unfold get.
  destruct s1; try discriminate; destruct s2; try discriminate;
    rewrite Hown; destruct (lookup "name" _); reflexivity.
Qed.

(** X11: of an array or object used as a specifier, [verify] reads the own
    properties only: two such specifiers with the same properties, neither
    an [Optional] wrapper, decide a field alike. *)
Theorem field_same_own_props (this : descriptor)
  (object f1 f2 s1 s2 allowDuckTyping : value) (key : string) :
  get f1 key = Ok s1 -> get f2 key = Ok s2 ->
  container s1 = true -> container s2 = true ->
  own_props s1 = own_props s2 ->
  is_Optional s1 = false -> names_a_type s1 = true ->
  is_Optional s2 = false -> names_a_type s2 = true ->
  field (fun o f => verify this o f allowDuckTyping) object f1 key
  = field (fun o f => verify this o f allowDuckTyping) object f2 key.
Proof.
  intros H1 H2 Hc1 Hc2 Hown Ho1 Hn1 Ho2 Hn2.
  pose proof (isOpt_not_Optional s1 Ho1 Hn1) as Hopt1.
  pose proof (isOpt_not_Optional s2 Ho2 Hn2) as Hopt2.
  pose proof (get_name_same_own_props s1 s2 Hc1 Hc2 Hown) as Hname.
  assert (Ht1 : (typeof s1 =? "object") = true)
    by (destruct s1; try discriminate; reflexivity).
  assert (Ht2 : (typeof s2 =? "object") = true)
    by (destruct s2; try discriminate; reflexivity).
  unfold field, optType.
  rewrite !(bind_lift_ok _ _ _ H1), !(bind_lift_ok _ _ _ H2).
  rewrite Hopt1, Hopt2, !bind_ret, Hname.
  apply bind_ext. intros fName.
  apply bind_ext. intros [|]; [reflexivity|].
  apply bind_ext. intros has. destruct (negb has); [reflexivity|].
  apply bind_ext. intros v. unfold match_value.
  apply bind_ext. intros oName. rewrite Ht1, Ht2.
  rewrite (verify_same_own_props this v s1 s2 allowDuckTyping Hc1 Hc2 Hown).
  reflexivity.
Qed.

Lemma field_same_own_props_witness :
  field (fun o f => verify PersonType o f (VBoolean true))
        (object_literal [("names", VArray [VString "Alice"])])
        (object_literal [("names", VObject "ArrayOf" [("type", String_)])])
        "names"
  = field (fun o f => verify PersonType o f (VBoolean true))
          (object_literal [("names", VArray [VString "Alice"])])
          (object_literal [("names", object_literal [("type", String_)])])
          "names".
Proof.
  apply (field_same_own_props PersonType _ _ _
           (VObject "ArrayOf" [("type", String_)])
           (object_literal [("type", String_)]));
    reflexivity.
Defined.

(** ** Flat formats *)

Lemma field_function_true (recurse : value -> value -> outcome bool)
  (object format : value) (key fn : string) :
  get format key = Ok (VFunction fn) ->
  eval_parses (VString fn) = true -> fn <> "Optional" ->
  (returned (field recurse object format key) = Ok true
   <-> exists v, Reflect_has object key = Ok true
                 /\ get object key = Ok v
                 /\ returned (Type_from v) = Ok (VString fn)).
Proof.
  intros Hspec He Hne. split.
  - intros Htrue. unfold field, optType in Htrue.
    rewrite !(bind_lift_ok _ _ _ Hspec), (isOpt_function fn He Hne),
      !bind_ret in Htrue.
    rewrite (bind_lift_ok _ (VString fn)), !bind_ret in Htrue by reflexivity.
    destruct (Reflect_has object key) as [[|]|e]; try discriminate.
    rewrite bind_lift_ok with (a := true) in Htrue by reflexivity.
    cbn [negb] in Htrue.
    destruct (get object key) as [v|e]; [|discriminate].
    rewrite bind_lift_ok with (a := v) in Htrue by reflexivity.
    exists v. split; [reflexivity|split; [reflexivity|]].
    unfold match_value in Htrue.
    pose proof (Type_from_silent v) as Hs.
    destruct (Type_from v) as [w [oName|e]]; simpl in Hs; subst w;
      [|discriminate].
    rewrite (bind_ret oName) in Htrue.
    change (typeof (VFunction fn) =? "object") with false in Htrue.
    rewrite andb_false_r in Htrue.
    destruct (strict_equals (VString fn) oName) eqn:Heq;
      [|unfold interpolate in Htrue; cbn [converts] in Htrue;
        destruct (converts oName); discriminate].
    destruct oName; try discriminate. cbn [strict_equals] in Heq.
    apply String.eqb_eq in Heq. subst. reflexivity.
  - intros [v [Hhas [Hv Ho]]].
    rewrite (field_by_name recurse object format v (VString fn) key fn
               Hspec He Hne Hhas Hv Ho).
    cbn [strict_equals]. rewrite String.eqb_refl. reflexivity.
Qed.

(** X6: for a format all of whose fields are declared by a function or
    class, [verify] returns true exactly when the object has every key and
    the value under each key is named as the declared type. *)
Theorem verify_flat_format (this : descriptor)
  (object allowDuckTyping : value) (tag : string)
  (fields : list (string * string)) :
  (forall key fn, In (key, fn) fields ->
     eval_parses (VString fn) = true /\ fn <> "Optional") ->
  NoDup (map fst fields) ->
  (returned (verify this object
               (VObject tag (map (fun p => (fst p, VFunction (snd p))) fields))
               allowDuckTyping) = Ok true
   <-> forall key fn, In (key, fn) fields ->
         exists v, Reflect_has object key = Ok true
                   /\ get object key = Ok v
                   /\ returned (Type_from v) = Ok (VString fn)).
Proof.
  intros Hfn Hnd.
  set (F := VObject tag (map (fun p => (fst p, VFunction (snd p))) fields)).
  assert (Hget : forall key fn, In (key, fn) fields ->
            get F key = Ok (VFunction fn)).
  { intros key fn Hin. unfold F, get. cbn [own_props].
    assert (Hl : lookup key (map (fun p => (fst p, VFunction (snd p))) fields)
                 = Some (VFunction fn)).
    { clear Hfn. induction fields as [|[k f] fields IH]; [contradiction|].
      cbn [map fst snd lookup]. inversion Hnd as [|? ? Hk Hnd']; subst.
      destruct Hin as [[= -> ->]|Hin].
      - rewrite String.eqb_refl. reflexivity.
      - destruct (String.eqb_spec k key) as [->|_]; [|apply IH; assumption].
        exfalso. apply Hk. apply (in_map fst) in Hin. exact Hin. }
    rewrite Hl. reflexivity. }
  assert (Hkeys : Object_keys (format_of this F) = Ok (map fst fields)).
  { unfold F. cbn [format_of truthy Object_keys own_props].
    rewrite map_map. reflexivity. }
  rewrite (verify_true_iff_every_field this object F allowDuckTyping
             (map fst fields) Hkeys).
  change (format_of this F) with F. split.
  - intros H key fn Hin.
    destruct (Hfn key fn Hin) as [He Hne].
    apply (field_function_true (fun o f => verify this o f allowDuckTyping)
             object F key fn (Hget key fn Hin) He Hne).
    apply H. apply (in_map fst) in Hin. exact Hin.
  - intros H key Hin. apply in_map_iff in Hin.
    destruct Hin as [[k fn] [<- Hin]]. cbn [fst].
    destruct (Hfn k fn Hin) as [He Hne].
    apply (field_function_true (fun o f => verify this o f allowDuckTyping)
             object F k fn (Hget k fn Hin) He Hne).
    apply H. exact Hin.
Qed.

Lemma verify_flat_format_witness :
  returned (verify PersonType john
              (object_literal [("name", String_); ("age", Number_)])
              (VBoolean true)) = Ok true
  <-> forall key fn, In (key, fn) [("name", "String"); ("age", "Number")] ->
        exists v, Reflect_has john key = Ok true
                  /\ get john key = Ok v
                  /\ returned (Type_from v) = Ok (VString fn).
Proof.
  apply (verify_flat_format PersonType john (VBoolean true) "Object"
           [("name", "String"); ("age", "Number")]).
  - intros key fn [[= <- <-]|[[= <- <-]|[]]]; split;
      solve [reflexivity | discriminate].
  - repeat constructor; simpl; intuition discriminate.
Defined.

(** X9: among plain values, [Type.Null] accepts [null] only and
    [Type.Undefined] accepts a present [undefined] only. *)
Theorem Type_Null_and_Undefined (recurse : value -> value -> outcome bool)
  (object format v : value) (key : string) :
  Reflect_has object key = Ok true ->
  get object key = Ok v ->
  plain v = true ->
  (get format key = Ok Type_Null ->
   (returned (field recurse object format key) = Ok true <-> v = VNull))
  /\ (get format key = Ok Type_Undefined ->
      (returned (field recurse object format key) = Ok true
       <-> v = VUndefined)).
Proof.
  intros Hhas Hv Hp.
  assert (Ho : returned (Type_from v) = Ok (VString (class_tag v))).
  { rewrite (Type_from_plain v Hp). reflexivity. }
  split; intros Hspec.
  - rewrite (field_function_true recurse object format key "Null" Hspec
               eq_refl ltac:(discriminate)).
    split.
    + intros [v' [_ [Hv' Ho']]]. rewrite Hv in Hv'. injection Hv' as <-.
      rewrite Ho in Ho'. injection Ho' as Htag.
      destruct v; simpl in *; try discriminate; try reflexivity.
      apply String.eqb_eq in Hp. congruence.
    + intros ->. exists VNull. auto.
  - rewrite (field_function_true recurse object format key "Undefined" Hspec
               eq_refl ltac:(discriminate)).
    split.
    + intros [v' [_ [Hv' Ho']]]. rewrite Hv in Hv'. injection Hv' as <-.
      rewrite Ho in Ho'. injection Ho' as Htag.
      destruct v; simpl in *; try discriminate; try reflexivity.
      apply String.eqb_eq in Hp. congruence.
    + intros ->. exists VUndefined. auto.
Qed.

Lemma Type_Null_and_Undefined_witness :
  returned (field (fun o f => verify PersonType o f (VBoolean true))
                  (object_literal [("parent", VNull)])
                  (object_literal [("parent", Type_Null)]) "parent") = Ok true
  <-> VNull = VNull.
Proof.
  apply (proj1 (Type_Null_and_Undefined _
                  (object_literal [("parent", VNull)])
                  (object_literal [("parent", Type_Null)]) VNull "parent"
                  eq_refl eq_refl eq_refl)).
  reflexivity.
Defined.

(** ** errors.mjs *)


(** ** The store around a descriptor *)

Module StoreOpsFacts.
Import stdpp.gmap.
Import Store StoreExample StoreOps StoreFacts.



End StoreOpsFacts.
